(** * git-web-exporter: a shallow embedding of [main.py]

    The program walks the commits of a repository oldest first, builds one
    record per commit with the unified diff of every changed text file, and
    renders the records through a template into [./output].

    The embedding follows [main.py] function by function.  Python objects
    that are shared by reference (the change dictionaries) live in an
    explicit heap; standard output, standard error and the file system are
    part of the state threaded through the code; an uncaught exception stops
    the run and leaves the state as it was when it was raised. *)

From Stdlib Require Import String Ascii List ZArith Lia.
From Stdlib.Strings Require Import Byte.
From stdpp Require Import gmap strings list fin_maps.

Open Scope string_scope.
Open Scope list_scope.

(** ** Python strings *)

Module PyStr.

(** The line break, ["\n"]. *)
Definition nl : ascii := "010"%char.
Definition NL : string := String nl EmptyString.

(** The double quote character, as a one-character string. *)
Definition DQ : string := String "034"%char EmptyString.

(** [s.split("\n")]: never empty, one more element than [s] has line
    breaks. *)
Fixpoint split (s : string) : list string :=
  match s with
  | EmptyString => [EmptyString]
  | String c s' =>
      if Ascii.eqb c nl then EmptyString :: split s'
      else match split s' with
           | [] => [String c EmptyString]
           | h :: t => String c h :: t
           end
  end.

(** [sep.join(l)]. *)
Fixpoint join (sep : string) (l : list string) : string :=
  match l with
  | [] => EmptyString
  | [x] => x
  | x :: rest => x +:+ sep +:+ join sep rest
  end.

(** [s.startswith(p)]. *)
Definition startswith (s p : string) : bool := String.prefix p s.

(** Whether [s] holds a line break. *)
Fixpoint has_nl (s : string) : bool :=
  match s with
  | EmptyString => false
  | String c s' => Ascii.eqb c nl || has_nl s'
  end.

End PyStr.

(** ** [bytes.decode("utf8")]

    A Python [str] is represented by its UTF-8 encoding, so decoding is the
    check that the bytes are well-formed UTF-8 (no overlong form, no
    surrogate, nothing above U+10FFFF); ill-formed input raises
    [UnicodeDecodeError]. *)

Module Utf8.

Definition between (lo hi : N) (b : byte) : bool :=
  (lo <=? Byte.to_N b)%N && (Byte.to_N b <=? hi)%N.

Definition cont : byte -> bool := between 128 191.

Fixpoint well_formed (bs : list byte) : bool :=
  match bs with
  | [] => true
  | b0 :: t0 =>
      if between 0 127 b0 then well_formed t0
      else if between 194 223 b0 then
        match t0 with
        | b1 :: t1 => cont b1 && well_formed t1
        | _ => false
        end
      else if between 224 239 b0 then
        match t0 with
        | b1 :: b2 :: t2 =>
            (if between 224 224 b0 then between 160 191 b1
             else if between 237 237 b0 then between 128 159 b1
             else cont b1)
            && cont b2 && well_formed t2
        | _ => false
        end
      else if between 240 244 b0 then
        match t0 with
        | b1 :: b2 :: b3 :: t3 =>
            (if between 240 240 b0 then between 144 191 b1
             else if between 244 244 b0 then between 128 143 b1
             else cont b1)
            && cont b2 && cont b3 && well_formed t3
        | _ => false
        end
      else false
  end.

Definition decode (bs : list byte) : option string :=
  if well_formed bs then Some (string_of_list_byte bs) else None.

End Utf8.

(** ** The objects GitPython hands out *)

Module Git.

(** A blob: [mime_type], the bytes [data_stream.read()] returns, [path]. *)
Record Blob := {
  mime_type : string;
  data_stream : list byte;
  path : string
}.

(** One entry of [commit.diff(rev)]; either side may be [None]. *)
Record Diff := {
  a_blob : option Blob;
  b_blob : option Blob
}.

Record Commit := {
  message : string;
  hexsha : string
}.

(** What [commit.diff] is given: a tree hash or a commit object. *)
Inductive Rev :=
| RevHash (h : string)
| RevCommit (c : Commit).

(** A repository: [iter_commits] holds its commits newest first, none for a
    repository nothing was committed to; [diff commit rev] is
    [commit.diff(rev)]. *)
Record Repo := {
  iter_commits : list Commit;
  diff : Commit -> Rev -> list Diff
}.

End Git.

(** ** The dictionaries the program builds *)

(** A reference to a change dictionary in the heap. *)
Abbreviation loc := nat.

(** [{"path": ..., "diff": ...}] *)
Module Change.
Record t := { path : string; diff : string }.
End Change.

(** [{"title": ..., "hash": ..., "body": ..., "changes": [...]}]; the list
    holds references to change dictionaries. *)
Module Page.
Record t := {
  title : string;
  hash : string;
  body : string;
  changes : list loc
}.
End Page.

(** [{"title": ..., "path": ...}] *)
Module Toc.
Record t := { title : string; path : string }.
End Toc.

(** The keyword arguments of [template.render]: [t] is the dictionary as
    the program builds it, [view] is what the template reads through it. *)
Module Context.
Record t := {
  title : string;
  hash : string;
  body : string;
  toc : list Toc.t;
  changes : list loc
}.
Record view := {
  v_title : string;
  v_hash : string;
  v_body : string;
  v_toc : list Toc.t;
  v_changes : list Change.t
}.
End Context.

#[global] Instance change_inhabited : Inhabited Change.t :=
  populate {| Change.path := EmptyString; Change.diff := EmptyString |}.

(** ** Exceptions, effects and the state of the run *)

Inductive exn :=
| ValueError                  (* not enough values to unpack; no commit for HEAD *)
| UnicodeDecodeError
| AttributeError              (* attribute access on None *)
| InvalidGitRepositoryError
| FileNotFoundError
| SystemExit (code : Z).

(** What the run does to the outside, in order.  [EvRender] records a call
    of [template.render] with the context as the template sees it. *)
Inductive Event :=
| EvStdout (s : string)
| EvStderr (s : string)
| EvMkdir (p : string)
| EvWrite (p content : string)
| EvRender (v : Context.view).

Record World := {
  heap : list Change.t;
  files : gmap string string;
  dirs : gset string;
  trace : list Event
}.

(** The state after [evs] more events, after [objs] more objects, with
    [content] in file [p], and with directory [p]. *)
Definition add_events (evs : list Event) (w : World) : World :=
  {| heap := heap w; files := files w; dirs := dirs w; trace := trace w ++ evs |}.

Definition add_objects (objs : list Change.t) (w : World) : World :=
  {| heap := heap w ++ objs; files := files w; dirs := dirs w; trace := trace w |}.

Definition put_file (p content : string) (w : World) : World :=
  {| heap := heap w; files := <[p := content]> (files w); dirs := dirs w;
     trace := trace w |}.

Definition add_dir (p : string) (w : World) : World :=
  {| heap := heap w; files := files w; dirs := {[p]} ∪ dirs w; trace := trace w |}.

Definition M (A : Type) : Type := World -> (exn + A) * World.

Definition ret {A} (a : A) : M A := fun w => (inr a, w).

Definition raise {A} (e : exn) : M A := fun w => (inl e, w).

Definition bind {A B} (m : M A) (k : A -> M B) : M B :=
  fun w => match m w with
           | (inr a, w') => k a w'
           | (inl e, w') => (inl e, w')
           end.

#[global] Instance M_ret : MRet M := @ret.
#[global] Instance M_bind : MBind M := fun A B k m => bind m k.

Definition emit (ev : Event) : M unit :=
  fun w => (inr tt, add_events [ev] w).

(** A dictionary display [{...}] makes a new object. *)
Definition alloc (c : Change.t) : M loc :=
  fun w => (inr (length (heap w)), add_objects [c] w).

(** Reading through a reference.  A Python reference keeps its object
    alive, so the default is never returned on data the program built. *)
Definition deref (l : loc) : M Change.t :=
  fun w => (inr (heap w !!! l), w).

(** [open(p).read()] *)
Definition read_file (p : string) : M string :=
  fun w => match files w !! p with
           | Some s => (inr s, w)
           | None => (inl FileNotFoundError, w)
           end.

(** [open(p, "w")] followed by [f.write(content)]. *)
Definition write_file (p content : string) : M unit :=
  fun w => (inr tt, add_events [EvWrite p content] (put_file p content w)).

(** [Path(p).exists()] *)
Definition path_exists (p : string) : M bool :=
  fun w => (inr (bool_decide (p ∈ dirs w) || bool_decide (is_Some (files w !! p))), w).

(** [Path(p).mkdir()] *)
Definition mkdir (p : string) : M unit :=
  fun w => (inr tt, add_events [EvMkdir p] (add_dir p w)).

(** [shutil.copy(src, dst)] *)
Definition copy (src dst : string) : M unit :=
  content ← read_file src; write_file dst content.

(** ** The libraries the program imports

    GitPython, difflib, python-markdown, python-slugify and Jinja2 are not
    part of the program; everything below holds for any behaviour of
    theirs. *)

Class Lib := {
  (** [Repo(repo_path)]; [None] when GitPython refuses the path. *)
  Repo : string -> option Git.Repo;
  (** [difflib.unified_diff(a, b, fromfile, tofile)], as the list of the
      lines it yields. *)
  unified_diff : list string -> list string -> string -> string -> list string;
  (** [markdown(md_content, extensions=...)] *)
  markdown : string -> list string -> string;
  (** [slugify(text)] *)
  slugify : string -> string;
  (** [Template(source).render] on the context given as keyword arguments. *)
  Template_render : string -> Context.view -> string
}.

Section Program.

Context `{L : Lib}.

(** *** [extract_repo_data] *)

(** [title, _, *body = commit.message.split("\n")] *)
Definition unpack_message (msg : string) : M (string * list string) :=
  match PyStr.split msg with
  | title :: _ :: body => ret (title, body)
  | _ => raise ValueError
  end.

(** [blob.data_stream.read().decode("utf8").split("\n")] *)
Definition blob_lines (blob : Git.Blob) : M (list string) :=
  match Utf8.decode (Git.data_stream blob) with
  | Some s => ret (PyStr.split s)
  | None => raise UnicodeDecodeError
  end.

(** [blob.mime_type.startswith("text")] *)
Definition is_text (blob : Git.Blob) : bool :=
  PyStr.startswith (Git.mime_type blob) "text".

(** The body of the loop over [commit.diff(rev)], up to the dictionary it
    appends; [None] stands for [continue]. *)
Definition change_of_diff (d : Git.Diff) : M (option Change.t) :=
  let a_blob := Git.a_blob d in
  let b_blob := Git.b_blob d in
  if match a_blob with Some a => negb (is_text a) | None => false end
  then ret None
  else if match b_blob with Some b => negb (is_text b) | None => false end
  then ret None
  else
    '(original, modified, blob_path) ←
      match a_blob, b_blob with
      | None, Some b =>
          modified ← blob_lines b;
          ret ([], modified, Git.path b)
      | Some a, None =>
          original ← blob_lines a;
          ret (original, [], Git.path a)
      | Some a, Some b =>
          original ← blob_lines a;
          modified ← blob_lines b;
          ret (original, modified, Git.path a)
      | None, None => raise AttributeError
      end;
    let delta := unified_diff modified original blob_path blob_path in
    ret (Some {| Change.path := blob_path;
                  Change.diff := PyStr.join PyStr.NL delta |}).

(** [for diff in commit.diff(rev): ...], with [changes] the list built so
    far. *)
Fixpoint diff_loop (diffs : list Git.Diff) (changes : list loc) : M (list loc) :=
  match diffs with
  | [] => ret changes
  | d :: rest =>
      r ← change_of_diff d;
      match r with
      | None => diff_loop rest changes
      | Some c =>
          l ← alloc c;
          diff_loop rest (changes ++ [l])
      end
  end.

(** One turn of the loop over the commits: the record appended to [data]. *)
Definition process_commit (repo : Git.Repo) (commit : Git.Commit) (rev : Git.Rev)
  : M Page.t :=
  '(title, body) ← unpack_message (Git.message commit);
  emit (EvStdout ("Processing " +:+ PyStr.DQ +:+ title +:+ PyStr.DQ +:+ "..." +:+ PyStr.NL));;
  changes ← diff_loop (Git.diff repo commit rev) [];
  ret {| Page.title := title;
          Page.hash := Git.hexsha commit;
          Page.body := PyStr.join PyStr.NL body;
          Page.changes := changes |}.

(** [for commit in commits: ...; rev = commit] *)
Fixpoint commit_loop (repo : Git.Repo) (commits : list Git.Commit) (rev : Git.Rev)
  (data : list Page.t) : M (list Page.t) :=
  match commits with
  | [] => ret data
  | commit :: rest =>
      record ← process_commit repo commit rev;
      commit_loop repo rest (Git.RevCommit commit) (data ++ [record])
  end.

(** The hash of the empty tree. *)
Definition empty_tree : string := "4b825dc642cb6eb9a060e54bf8d69288fbee4904".

(** [repo.iter_commits()]: GitPython resolves [HEAD] first, and raises
    [ValueError] when the repository has no commit to resolve it to. *)
Definition iter_commits (repo : Git.Repo) : M (list Git.Commit) :=
  match Git.iter_commits repo with
  | [] => raise ValueError
  | listed => ret listed
  end.

Definition extract_repo_data (repo_path : string) : M (list Page.t) :=
  repo ← match Repo repo_path with
         | Some repo => ret repo
         | None => raise InvalidGitRepositoryError
         end;
  let rev := Git.RevHash empty_tree in
  listed ← iter_commits repo;
  let commits := reverse listed in
  commit_loop repo commits rev [].

(** *** [render_markdown] *)

Definition render_markdown (md_content : string) : string :=
  markdown md_content ["codehilite"; "fenced_code"].

(** *** [render_repo_data] *)

Definition base_html : string := "templates/base.html".
Definition styles : string := "templates/styles.css".
Definition output_dir : string := "output".

(** [output_dir / Path(name)] *)
Definition in_output (name : string) : string := output_dir +:+ "/" +:+ name.

(** The first loop over [data], with [toc] the list built so far. *)
Fixpoint toc_loop (data : list Page.t) (toc : list Toc.t) : list Toc.t :=
  match data with
  | [] => toc
  | page :: rest =>
      let title := Page.title page in
      let path := slugify title +:+ ".html" in
      toc_loop rest (toc ++ [{| Toc.title := title; Toc.path := "./" +:+ path |}])
  end.

(** [for change in page["changes"]: ...], with [changes] the list built so
    far. *)
Fixpoint changes_loop (cs : list loc) (changes : list loc) : M (list loc) :=
  match cs with
  | [] => ret changes
  | c :: rest =>
      change ← deref c;
      let diff := Change.diff change in
      l ← alloc {| Change.path := Change.path change;
                   Change.diff := render_markdown
                     ("``` diff" +:+ PyStr.NL +:+ diff +:+ PyStr.NL +:+ "```") |};
      changes_loop rest (changes ++ [l])
  end.

(** What the template reads through a context. *)
Definition view_context (h : list Change.t) (c : Context.t) : Context.view :=
  {| Context.v_title := Context.title c;
     Context.v_hash := Context.hash c;
     Context.v_body := Context.body c;
     Context.v_toc := Context.toc c;
     Context.v_changes := (fun l => h !!! l) <$> Context.changes c |}.

(** [template.render] on [context] given as keyword arguments. *)
Definition render (template : string) (context : Context.t) : M string :=
  fun w =>
    let v := view_context (heap w) context in
    (inr (Template_render template v), add_events [EvRender v] w).

(** The second loop over [data]. *)
Fixpoint page_loop (template : string) (toc : list Toc.t) (data : list Page.t)
  (generate_index : bool) : M unit :=
  match data with
  | [] => ret tt
  | page :: rest =>
      let title := Page.title page in
      let html_filename := slugify title +:+ ".html" in
      changes ← changes_loop (Page.changes page) [];
      let context :=
        {| Context.title := Page.title page;
           Context.hash := Page.hash page;
           Context.body := render_markdown (Page.body page);
           Context.toc := toc;
           Context.changes := changes |} in
      out ← render template context;
      write_file (in_output html_filename) out;;
      generate_index' ←
        (if generate_index then
           out' ← render template context;
           write_file (in_output "index.html") out';;
           ret false
         else ret generate_index);
      page_loop template toc rest generate_index'
  end.

Definition render_repo_data (data : list Page.t) : M unit :=
  template ← read_file base_html;
  ex ← path_exists output_dir;
  (if ex : bool then ret tt else mkdir output_dir);;
  copy styles (in_output "styles.css");;
  let generate_index := true in
  let toc := toc_loop data [] in
  page_loop template toc data generate_index.

(** *** [main] *)

Definition main (argv : list string) : M unit :=
  (if (length argv <? 2)%nat then
     emit (EvStdout ("Please provider a repo" +:+ PyStr.NL));;
     raise (SystemExit 1)
   else ret tt);;
  match argv with
  | _ :: repo :: rest =>
      let repo_path := repo in
      ex ← path_exists repo_path;
      (if ex : bool then ret tt
       else emit (EvStderr (repo_path +:+ " doesn't exist"));;
            raise (SystemExit 1));;
      data ← extract_repo_data repo_path;
      render_repo_data data
  | _ => raise ValueError
  end.

End Program.

(** ** The vocabulary of the statements *)

Section Vocabulary.

Context `{L : Lib}.

(** An entry is skipped when a blob that is present is not text. *)
Definition skipped (d : Git.Diff) : bool :=
  match Git.a_blob d with Some a => negb (is_text a) | None => false end
  || match Git.b_blob d with Some b => negb (is_text b) | None => false end.

Definition kept (d : Git.Diff) : bool := negb (skipped d).

(** The lines of one side of an entry: none when the blob is absent. *)
Definition side_lines (side : option Git.Blob) : list string :=
  match side with
  | Some blob => PyStr.split (string_of_list_byte (Git.data_stream blob))
  | None => []
  end.

(** The path the entry is filed under. *)
Definition diff_label (d : Git.Diff) : string :=
  match Git.a_blob d, Git.b_blob d with
  | Some a, _ => Git.path a
  | None, Some b => Git.path b
  | None, None => EmptyString
  end.

(** The change dictionary an entry that is kept gives rise to. *)
Definition emitted (d : Git.Diff) : Change.t :=
  {| Change.path := diff_label d;
     Change.diff := PyStr.join PyStr.NL
       (unified_diff (side_lines (Git.b_blob d)) (side_lines (Git.a_blob d))
          (diff_label d) (diff_label d)) |}.

Definition decodable (side : option Git.Blob) : bool :=
  match side with
  | Some blob => Utf8.well_formed (Git.data_stream blob)
  | None => true
  end.

(** The entries the loop body gets through without raising. *)
Definition diff_ok (d : Git.Diff) : bool :=
  skipped d
  || (bool_decide (is_Some (Git.a_blob d)) || bool_decide (is_Some (Git.b_blob d)))
     && decodable (Git.a_blob d) && decodable (Git.b_blob d).

(** The commits the loop gets through without raising, [rev] being the
    revision the first of them is compared with. *)
Fixpoint commits_ok (repo : Git.Repo) (commits : list Git.Commit) (rev : Git.Rev)
  : bool :=
  match commits with
  | [] => true
  | commit :: rest =>
      PyStr.has_nl (Git.message commit)
      && forallb diff_ok (Git.diff repo commit rev)
      && commits_ok repo rest (Git.RevCommit commit)
  end.

(** The progress line of a commit. *)
Definition progress (title : string) : Event :=
  EvStdout ("Processing " +:+ PyStr.DQ +:+ title +:+ PyStr.DQ +:+ "..." +:+ PyStr.NL).

(** The record of a commit whose message splits into [title], one line and
    [body], built on a heap of [n] objects. *)
Definition record_of (repo : Git.Repo) (commit : Git.Commit) (rev : Git.Rev)
  (title : string) (body : list string) (n : nat) : Page.t :=
  {| Page.title := title;
     Page.hash := Git.hexsha commit;
     Page.body := PyStr.join PyStr.NL body;
     Page.changes := seq n (length (List.filter kept (Git.diff repo commit rev))) |}.

(** The table-of-contents entry of a record. *)
Definition toc_entry (page : Page.t) : Toc.t :=
  {| Toc.title := Page.title page;
     Toc.path := "./" +:+ slugify (Page.title page) +:+ ".html" |}.

(** The change a page shows for a change dictionary. *)
Definition html_change (c : Change.t) : Change.t :=
  {| Change.path := Change.path c;
     Change.diff := render_markdown
       ("``` diff" +:+ PyStr.NL +:+ Change.diff c +:+ PyStr.NL +:+ "```") |}.

(** What the template is given for [page], read in the heap [h]. *)
Definition page_view (toc : list Toc.t) (h : list Change.t) (page : Page.t)
  : Context.view :=
  {| Context.v_title := Page.title page;
     Context.v_hash := Page.hash page;
     Context.v_body := render_markdown (Page.body page);
     Context.v_toc := toc;
     Context.v_changes := (fun l => html_change (h !!! l)) <$> Page.changes page |}.

(** The template is shown [page] through [v], changes aside. *)
Definition shows (toc : list Toc.t) (page : Page.t) (v : Context.view) : Prop :=
  Context.v_title v = Page.title page
  /\ Context.v_hash v = Page.hash page
  /\ Context.v_body v = render_markdown (Page.body page)
  /\ Context.v_toc v = toc.

(** Every reference of [data] points into [h]. *)
Definition refs_live (h : list Change.t) (data : list Page.t) : Prop :=
  Forall (fun page => Forall (fun l => l < length h) (Page.changes page)) data.

(** The contents written to [p], in order. *)
Fixpoint writes_to (p : string) (evs : list Event) : list string :=
  match evs with
  | [] => []
  | EvWrite q content :: rest =>
      if String.eqb p q then content :: writes_to p rest else writes_to p rest
  | _ :: rest => writes_to p rest
  end.

(** The files after the writes among [evs]. *)
Fixpoint replay (evs : list Event) (fs : gmap string string) : gmap string string :=
  match evs with
  | [] => fs
  | EvWrite p content :: rest => replay rest (<[p := content]> fs)
  | _ :: rest => replay rest fs
  end.

(** The file a page titled [title] is written to. *)
Definition page_file (title : string) : string :=
  in_output (slugify title +:+ ".html").

(** What the second loop does for pages the template sees as [views]: each
    is rendered and written to its file, the first one, when
    [generate_index] is set, a second time to [index.html]. *)
Fixpoint page_events (template : string) (generate_index : bool)
  (views : list Context.view) : list Event :=
  match views with
  | [] => []
  | v :: rest =>
      [EvRender v;
       EvWrite (page_file (Context.v_title v)) (Template_render template v)]
      ++ (if generate_index
          then [EvRender v;
                EvWrite (in_output "index.html") (Template_render template v)]
          else [])
      ++ page_events template false rest
  end.

(** Whether [p] is there when the run starts from [w]. *)
Definition present (p : string) (w : World) : bool :=
  bool_decide (p ∈ dirs w) || bool_decide (is_Some (files w !! p)).

(** What [render_repo_data] does before the pages: the output directory is
    made if it is not there, and the stylesheet copied. *)
Definition setup_events (w : World) (css : string) : list Event :=
  (if present output_dir w then [] else [EvMkdir output_dir])
  ++ [EvWrite (in_output "styles.css") css].

(** The contexts [template.render] was called with, in order. *)
Fixpoint rendered (evs : list Event) : list Context.view :=
  match evs with
  | [] => []
  | EvRender v :: rest => v :: rendered rest
  | _ :: rest => rendered rest
  end.

End Vocabulary.

(** ** Sample libraries and repositories

    Stand-ins for the imported libraries, simple enough to run, and a few
    repositories to run the program on. *)

Module Sample.

(** A whole-file diff: the two labels, the lines of the first side marked
    [-], the lines of the second marked [+]. *)
Definition unified_diff (a b : list string) (fromfile tofile : string)
  : list string :=
  ("--- " +:+ fromfile) :: ("+++ " +:+ tofile)
    :: ((fun l => "-" +:+ l) <$> a) ++ ((fun l => "+" +:+ l) <$> b).

Definition markdown (md : string) (extensions : list string) : string :=
  "<md>" +:+ md +:+ "</md>".

(** Letters and digits, lower-cased; any run of other characters between
    them becomes one hyphen. *)
Definition slug_char (c : ascii) : option ascii :=
  let n := nat_of_ascii c in
  if (65 <=? n)%nat && (n <=? 90)%nat then Some (ascii_of_nat (n + 32))
  else if (97 <=? n)%nat && (n <=? 122)%nat then Some c
  else if (48 <=? n)%nat && (n <=? 57)%nat then Some c
  else None.

Fixpoint slug_from (s : string) (started pending : bool) : string :=
  match s with
  | EmptyString => EmptyString
  | String c s' =>
      match slug_char c with
      | Some c' =>
          (if started && pending then "-" else EmptyString)
          +:+ String c' (slug_from s' true false)
      | None => slug_from s' started true
      end
  end.

Definition slugify (text : string) : string := slug_from text false false.

Definition Template_render (source : string) (v : Context.view) : string :=
  source +:+ "|" +:+ Context.v_title v +:+ "|" +:+ Context.v_hash v
  +:+ "|" +:+ Context.v_body v
  +:+ "|" +:+ PyStr.join "," (Toc.path <$> Context.v_toc v)
  +:+ "|" +:+ PyStr.join "," (Change.diff <$> Context.v_changes v).

(** The libraries, over a repository that any path opens. *)
Definition lib (repo : Git.Repo) : Lib :=
  Build_Lib (fun _ => Some repo) unified_diff markdown slugify Template_render.

Definition text_blob (path content : string) : Git.Blob :=
  {| Git.mime_type := "text/plain";
     Git.data_stream := list_byte_of_string content;
     Git.path := path |}.

Definition foo_ab : Git.Blob := text_blob "foo.txt" ("a" +:+ PyStr.NL +:+ "b" +:+ PyStr.NL).
Definition foo_ac : Git.Blob := text_blob "foo.txt" ("a" +:+ PyStr.NL +:+ "c" +:+ PyStr.NL).

Definition logo : Git.Blob :=
  {| Git.mime_type := "image/png"; Git.data_stream := [x89; x50; x4e; x47];
     Git.path := "logo.png" |}.

(** Typed as text, but not UTF-8. *)
Definition latin1 : Git.Blob :=
  {| Git.mime_type := "text/plain"; Git.data_stream := [x63; x61; x66; xe9];
     Git.path := "menu.txt" |}.

Definition first_commit : Git.Commit :=
  {| Git.message := "Add foo" +:+ PyStr.NL; Git.hexsha := "1111111" |}.

Definition second_commit : Git.Commit :=
  {| Git.message := "Fix bug" +:+ PyStr.NL +:+ PyStr.NL +:+ "Details here";
     Git.hexsha := "2222222" |}.

Definition third_commit : Git.Commit :=
  {| Git.message := "fix-bug" +:+ PyStr.NL; Git.hexsha := "3333333" |}.

(** A message without a line break. *)
Definition bare_commit : Git.Commit :=
  {| Git.message := "Update README.md"; Git.hexsha := "4444444" |}.

Definition logo_commit : Git.Commit :=
  {| Git.message := "Add logo" +:+ PyStr.NL; Git.hexsha := "5555555" |}.

Definition index_commit : Git.Commit :=
  {| Git.message := "index" +:+ PyStr.NL; Git.hexsha := "6666666" |}.

(** Three commits; the entries of each are listed by its hash. *)
Definition repo : Git.Repo :=
  {| Git.iter_commits := [third_commit; second_commit; first_commit];
     Git.diff := fun commit rev =>
       if String.eqb (Git.hexsha commit) "1111111" then
         [ {| Git.a_blob := Some foo_ab; Git.b_blob := None |} ]
       else if String.eqb (Git.hexsha commit) "2222222" then
         [ {| Git.a_blob := Some foo_ac; Git.b_blob := Some foo_ab |};
           {| Git.a_blob := Some logo; Git.b_blob := None |} ]
       else [] |}.

(** One commit whose message is a single line with no line break. *)
Definition bare_repo : Git.Repo :=
  {| Git.iter_commits := [bare_commit]; Git.diff := fun _ _ => [] |}.

(** One commit with a text-typed file that is not UTF-8. *)
Definition latin1_repo : Git.Repo :=
  {| Git.iter_commits := [first_commit];
     Git.diff := fun _ _ => [ {| Git.a_blob := Some latin1; Git.b_blob := None |} ] |}.

(** One commit that only changes a file that is not text. *)
Definition logo_repo : Git.Repo :=
  {| Git.iter_commits := [logo_commit];
     Git.diff := fun _ _ => [ {| Git.a_blob := Some logo; Git.b_blob := None |} ] |}.

(** Two commits, the later one titled [index]. *)
Definition index_repo : Git.Repo :=
  {| Git.iter_commits := [index_commit; first_commit];
     Git.diff := fun _ _ => [] |}.

(** A working directory with the template and the stylesheet. *)
Definition world : World :=
  {| heap := [];
     files := <[base_html := "T"]> (<[styles := "S"]> ∅);
     dirs := {["repo"]};
     trace := [] |}.

(** The records the program extracts from [repo], and the state it leaves. *)
Definition pages : list Page.t :=
  match (@extract_repo_data (lib repo) "repo" world).1 with
  | inr data => data
  | inl _ => []
  end.

Definition extracted : World := (@extract_repo_data (lib repo) "repo" world).2.

End Sample.

(** ** Further vocabulary *)

(** Line 0 of the message of a commit. *)
Definition commit_title (c : Git.Commit) : string :=
  hd EmptyString (PyStr.split (Git.message c)).

(** The progress lines of [commits], in order. *)
Definition progress_lines (commits : list Git.Commit) : list Event :=
  (fun c => progress (commit_title c)) <$> commits.

(** The exceptions the extraction of a repository that opens can end in. *)
Definition extraction_error (e : exn) : Prop :=
  e = ValueError \/ e = UnicodeDecodeError \/ e = AttributeError.

(** The repositories extraction gets through: at least one commit, and
    commits the loop gets through. *)
Definition goes_through (repo : Git.Repo) : bool :=
  match Git.iter_commits repo with
  | [] => false
  | _ :: _ =>
      commits_ok repo (reverse (Git.iter_commits repo)) (Git.RevHash empty_tree)
  end.

(** The revision the loop holds in [rev] when it reaches the commit at
    index [k] of [commits], having started with [rev]: the commit before
    it. *)
Fixpoint rev_before (rev : Git.Rev) (commits : list Git.Commit) (k : nat)
  : Git.Rev :=
  match k, commits with
  | S j, commit :: rest => rev_before (Git.RevCommit commit) rest j
  | _, _ => rev
  end.

(** The revision the commit at index [k] of the oldest-first list is
    compared with: the empty tree for the first commit, the commit before
    it for the others. *)
Definition previous_revision (repo : Git.Repo) (k : nat) : Git.Rev :=
  rev_before (Git.RevHash empty_tree) (reverse (Git.iter_commits repo)) k.

(** How GitPython fills the two sides of the entries of [commit.diff(rev)]:
    side a is taken from the tree of the object [diff] is called on, side b
    from the tree of its argument.  With [blob_at r p] the blob at path [p]
    in the tree of revision [r], every entry of the diffs the loop asks for
    has as [a_blob] a blob of the commit and as [b_blob] a blob of the
    revision the commit is compared with ([None] where the tree has nothing
    at the path). *)
Definition sides_of_trees (blob_at : Git.Rev -> string -> option Git.Blob)
  (repo : Git.Repo) : Prop :=
  forall k commit d,
    reverse (Git.iter_commits repo) !! k = Some commit ->
    d ∈ Git.diff repo commit (previous_revision repo k) ->
    exists path_a path_b,
      Git.a_blob d = blob_at (Git.RevCommit commit) path_a
      /\ Git.b_blob d = blob_at (previous_revision repo k) path_b.

(** Further sample inputs: libraries over a path GitPython refuses, a
    working directory with nothing in it, one with the template only, and
    the state after extraction with a file of an earlier run in the output
    directory. *)
Module More.

Definition closed_lib : Lib :=
  Build_Lib (fun _ => None) Sample.unified_diff Sample.markdown Sample.slugify
    Sample.Template_render.

Definition empty_world : World :=
  {| heap := []; files := ∅; dirs := ∅; trace := [] |}.

Definition template_only_world : World :=
  {| heap := []; files := <[base_html := "T"]> ∅; dirs := ∅; trace := [] |}.

Definition stale_world : World :=
  put_file "output/old-page.html" "old" Sample.extracted.


(** Two commits whose titles have the same slug. *)
Definition collision_repo : Git.Repo :=
  {| Git.iter_commits := [Sample.third_commit; Sample.second_commit];
     Git.diff := fun _ _ => [] |}.

(** A commit with a body of two lines after a second line that is not
    blank. *)
Definition long_commit : Git.Commit :=
  {| Git.message := "Title" +:+ PyStr.NL +:+ "dropped" +:+ PyStr.NL
                    +:+ "line one" +:+ PyStr.NL +:+ "line two";
     Git.hexsha := "7777777" |}.

(** The trees of [Sample.repo]: [foo.txt] from the first commit on, changed
    by the second, which also adds [logo.png]. *)
Definition blob_at (rev : Git.Rev) (path : string) : option Git.Blob :=
  match rev with
  | Git.RevHash _ => None
  | Git.RevCommit commit =>
      if String.eqb (Git.hexsha commit) "1111111" then
        if String.eqb path "foo.txt" then Some Sample.foo_ab else None
      else
        if String.eqb path "foo.txt" then Some Sample.foo_ac
        else if String.eqb path "logo.png" then Some Sample.logo
        else None
  end.

End More.

(** * Properties *)

(** ** Python strings *)

Lemma split_nonempty s : PyStr.split s <> [].
Proof. destruct s as [|c s]; simpl; [done|]. by destruct (Ascii.eqb c PyStr.nl), (PyStr.split s). Qed.

(** [split] yields one element exactly when there is no line break. *)
Lemma split_has_nl s :
  PyStr.has_nl s = false <-> exists t, PyStr.split s = [t].
Proof.
  induction s as [|c s IH]; simpl.
  - split; eauto.
  - destruct (Ascii.eqb c PyStr.nl); simpl.
    + split; [done|]. intros [t Ht]. injection Ht as _ Hs.
      by destruct (split_nonempty s).
    + rewrite IH. split.
      * intros [t ->]. eauto.
      * intros [t Ht]. destruct (PyStr.split s) as [|h [|h' r]] eqn:E.
        -- by destruct (split_nonempty s).
        -- eauto.
        -- discriminate.
Qed.

Lemma split_two_lines s :
  PyStr.has_nl s = true -> exists title x body, PyStr.split s = title :: x :: body.
Proof.
  intros H. destruct (PyStr.split s) as [|t [|x body]] eqn:E.
  - by destruct (split_nonempty s).
  - assert (PyStr.has_nl s = false) by (apply split_has_nl; eauto). congruence.
  - eauto.
Qed.

Lemma split_line (t s : string) :
  PyStr.has_nl t = false ->
  PyStr.split (t +:+ PyStr.NL +:+ s) = t :: PyStr.split s.
Proof.
  induction t as [|c t IH]; intros H.
  - reflexivity.
  - simpl in H. apply orb_false_elim in H as [Hc Ht].
    change (PyStr.split (String c (t +:+ PyStr.NL +:+ s))
            = String c t :: PyStr.split s).
    simpl. rewrite Hc. by rewrite (IH Ht).
Qed.

Lemma split_single (t : string) :
  PyStr.has_nl t = false -> PyStr.split t = [t].
Proof.
  induction t as [|c t IH]; intros H; [done|].
  simpl in H. apply orb_false_elim in H as [Hc Ht].
  simpl. rewrite Hc. by rewrite (IH Ht).
Qed.

(** Joining the lines of a text with line breaks gives the text back. *)
Lemma join_split (s : string) : PyStr.join PyStr.NL (PyStr.split s) = s.
Proof.
  induction s as [|c s IH]; [done|].
  simpl. destruct (Ascii.eqb_spec c PyStr.nl) as [->|Hc].
  - destruct (PyStr.split s) as [|h t] eqn:E; [by destruct (split_nonempty s)|].
    change (PyStr.join PyStr.NL (EmptyString :: h :: t))
      with (EmptyString +:+ PyStr.NL +:+ PyStr.join PyStr.NL (h :: t)).
    by rewrite IH.
  - destruct (PyStr.split s) as [|h t] eqn:E; [by destruct (split_nonempty s)|].
    destruct t as [|h' t].
    + simpl in *. by rewrite IH.
    + change (PyStr.join PyStr.NL (String c h :: h' :: t))
        with (String c (h +:+ PyStr.NL +:+ PyStr.join PyStr.NL (h' :: t))).
      by rewrite <- IH.
Qed.

(** [sep.join(l)] is the concatenation of the standard library. *)
Lemma join_concat (sep : string) (l : list string) :
  PyStr.join sep l = String.concat sep l.
Proof.
  induction l as [|x l IH]; [done|].
  destruct l as [|y l]; [done|].
  change (PyStr.join sep (x :: y :: l)) with (x +:+ sep +:+ PyStr.join sep (y :: l)).
  rewrite IH. reflexivity.
Qed.

(** Splitting the join of lines that hold no line break gives the lines
    back. *)
Lemma split_concat (lines : list string) :
  lines <> [] ->
  Forall (fun line => PyStr.has_nl line = false) lines ->
  PyStr.split (String.concat PyStr.NL lines) = lines.
Proof.
  induction lines as [|x lines IH]; [done|]. intros _ H.
  apply Forall_cons in H as [Hx H].
  destruct lines as [|y lines].
  - simpl. by apply split_single.
  - change (String.concat PyStr.NL (x :: y :: lines))
      with (x +:+ PyStr.NL +:+ String.concat PyStr.NL (y :: lines)).
    rewrite (split_line _ _ Hx). f_equal. by apply IH.
Qed.

(** The lines of a text hold no line break. *)
Lemma split_no_nl (s : string) :
  Forall (fun line => PyStr.has_nl line = false) (PyStr.split s).
Proof.
  induction s as [|c s IH]; simpl.
  - by repeat constructor.
  - destruct (Ascii.eqb c PyStr.nl) eqn:Ec.
    + by constructor.
    + destruct (PyStr.split s) as [|h t].
      { constructor; [|done]. simpl. by rewrite Ec. }
      apply Forall_cons in IH as [Hh Ht]. constructor; [|done].
      simpl. by rewrite Ec.
Qed.

(** ** The state *)

Arguments add_events : simpl never.
Arguments add_objects : simpl never.
Arguments put_file : simpl never.
Arguments add_dir : simpl never.
Arguments in_output : simpl never.
Arguments page_file : simpl never.
Arguments String.eqb : simpl never.

Lemma heap_add_objects objs w : heap (add_objects objs w) = heap w ++ objs.
Proof. done. Qed.

Lemma heap_add_events evs w : heap (add_events evs w) = heap w.
Proof. done. Qed.

Lemma add_objects_nil w : add_objects [] w = w.
Proof. destruct w. unfold add_objects. simpl. by rewrite app_nil_r. Qed.

Lemma add_objects_app o1 o2 w :
  add_objects o2 (add_objects o1 w) = add_objects (o1 ++ o2) w.
Proof. unfold add_objects. simpl. by rewrite app_assoc. Qed.

Lemma add_events_nil w : add_events [] w = w.
Proof. destruct w. unfold add_events. simpl. by rewrite app_nil_r. Qed.

Lemma bind_inr {A B} (m : M A) (k : A -> M B) w a w' :
  m w = (inr a, w') -> (m ≫= k) w = k a w'.
Proof. intros H. unfold mbind, M_bind, bind. by rewrite H. Qed.

Lemma bind_inl {A B} (m : M A) (k : A -> M B) w e w' :
  m w = (inl e, w') -> (m ≫= k) w = (inl e, w').
Proof. intros H. unfold mbind, M_bind, bind. by rewrite H. Qed.

Ltac run := unfold mbind, M_bind, bind, ret, raise; simpl.

Section Extraction.

Context `{L : Lib}.

Lemma blob_lines_ok blob w :
  Utf8.well_formed (Git.data_stream blob) = true ->
  blob_lines blob w = (inr (side_lines (Some blob)), w).
Proof. intros H. unfold blob_lines, Utf8.decode. by rewrite H. Qed.

Lemma blob_lines_fail blob w :
  Utf8.well_formed (Git.data_stream blob) = false ->
  blob_lines blob w = (inl UnicodeDecodeError, w).
Proof. intros H. unfold blob_lines, Utf8.decode. by rewrite H. Qed.

Lemma change_of_diff_skipped d w :
  skipped d = true -> change_of_diff d w = (inr None, w).
Proof.
  unfold skipped, change_of_diff. destruct d as [[a|] [b|]]; simpl;
    repeat (destruct (is_text _); simpl); done.
Qed.

Lemma change_of_diff_kept d w :
  skipped d = false -> diff_ok d = true ->
  change_of_diff d w = (inr (Some (emitted d)), w).
Proof.
  unfold diff_ok. intros Hs. rewrite Hs. simpl. revert Hs.
  unfold skipped, change_of_diff, emitted, diff_label.
  destruct d as [[a|] [b|]]; simpl;
    repeat (destruct (is_text _); simpl); try done; intros _ H;
    repeat match type of H with _ && _ = true => apply andb_prop in H as [H ?] end.
  - run. rewrite !blob_lines_ok by done. done.
  - run. rewrite !blob_lines_ok by done. done.
  - run. rewrite !blob_lines_ok by done. done.
Qed.

Lemma change_of_diff_fail d w :
  diff_ok d = false -> exists e, change_of_diff d w = (inl e, w).
Proof.
  unfold diff_ok, skipped, change_of_diff.
  destruct d as [[a|] [b|]]; simpl;
    repeat (destruct (is_text _); simpl); try done; intros H; run.
  - destruct (Utf8.well_formed (Git.data_stream a)) eqn:Ea.
    + rewrite blob_lines_ok by done. simpl in H.
      rewrite blob_lines_fail by done. eauto.
    + rewrite blob_lines_fail by done. eauto.
  - rewrite andb_true_r in H. rewrite blob_lines_fail by done. eauto.
  - rewrite blob_lines_fail by done. eauto.
  - eauto.
Qed.

Lemma diff_loop_ok diffs : forall changes w,
  forallb diff_ok diffs = true ->
  diff_loop diffs changes w =
    (inr (changes ++ seq (length (heap w)) (length (List.filter kept diffs))),
     add_objects (emitted <$> List.filter kept diffs) w).
Proof.
  induction diffs as [|d diffs IH]; intros changes w H; simpl.
  - by rewrite app_nil_r, add_objects_nil.
  - simpl in H. apply andb_prop in H as [Hd Hr].
    destruct (skipped d) eqn:Es.
    + assert (Hk : kept d = false) by (unfold kept; by rewrite Es).
      rewrite Hk. erewrite bind_inr by (by apply change_of_diff_skipped).
      by apply IH.
    + assert (Hk : kept d = true) by (unfold kept; by rewrite Es).
      rewrite Hk. erewrite bind_inr by (by apply change_of_diff_kept).
      unfold alloc. run. rewrite IH by done.
      rewrite heap_add_objects, length_app, add_objects_app, <- app_assoc. simpl.
      by replace (length (heap w) + 1) with (S (length (heap w))) by lia.
Qed.

Lemma diff_loop_fail diffs : forall changes w,
  forallb diff_ok diffs = false ->
  exists e objs, diff_loop diffs changes w = (inl e, add_objects objs w).
Proof.
  induction diffs as [|d diffs IH]; intros changes w H; simpl in *; [done|].
  destruct (diff_ok d) eqn:Ed; simpl in H.
  - destruct (skipped d) eqn:Es.
    + erewrite bind_inr by (by apply change_of_diff_skipped). by apply IH.
    + erewrite bind_inr by (by apply change_of_diff_kept).
      unfold alloc. run.
      destruct (IH (changes ++ [length (heap w)]) (add_objects [emitted d] w) H)
        as (e & objs & ->).
      exists e, ([emitted d] ++ objs). by rewrite add_objects_app.
  - destruct (change_of_diff_fail d w Ed) as [e He].
    exists e, []. erewrite bind_inl by done. by rewrite add_objects_nil.
Qed.

Lemma unpack_message_ok msg title x body w :
  PyStr.split msg = title :: x :: body ->
  unpack_message msg w = (inr (title, body), w).
Proof. intros H. unfold unpack_message. by rewrite H. Qed.

Lemma unpack_message_fail msg w :
  PyStr.has_nl msg = false -> unpack_message msg w = (inl ValueError, w).
Proof.
  intros H. apply split_has_nl in H as [t Ht]. unfold unpack_message. by rewrite Ht.
Qed.

Lemma process_commit_ok repo commit rev title x body w :
  PyStr.split (Git.message commit) = title :: x :: body ->
  forallb diff_ok (Git.diff repo commit rev) = true ->
  process_commit repo commit rev w =
    (inr (record_of repo commit rev title body (length (heap w))),
     add_objects (emitted <$> List.filter kept (Git.diff repo commit rev))
       (add_events [progress title] w)).
Proof.
  intros Hm Hd. unfold process_commit.
  erewrite bind_inr by (by eapply unpack_message_ok). simpl.
  unfold emit at 1. run. by rewrite diff_loop_ok.
Qed.

Lemma process_commit_bare repo commit rev w :
  PyStr.has_nl (Git.message commit) = false ->
  process_commit repo commit rev w = (inl ValueError, w).
Proof.
  intros H. unfold process_commit.
  by erewrite bind_inl by (by apply unpack_message_fail).
Qed.

Lemma process_commit_fail repo commit rev w :
  PyStr.has_nl (Git.message commit) && forallb diff_ok (Git.diff repo commit rev)
    = false ->
  exists e w', process_commit repo commit rev w = (inl e, w').
Proof.
  intros H. destruct (PyStr.has_nl (Git.message commit)) eqn:En; simpl in H.
  - destruct (split_two_lines _ En) as (title & x & body & Hs).
    unfold process_commit.
    erewrite bind_inr by (by eapply unpack_message_ok). simpl.
    unfold emit at 1. run.
    edestruct diff_loop_fail as (e & objs & ->); [done|]. eauto.
  - rewrite process_commit_bare by done. eauto.
Qed.

Lemma process_commit_inv repo commit rev w record w' :
  process_commit repo commit rev w = (inr record, w') ->
  exists title x body,
    PyStr.split (Git.message commit) = title :: x :: body
    /\ forallb diff_ok (Git.diff repo commit rev) = true
    /\ record = record_of repo commit rev title body (length (heap w))
    /\ w' = add_objects (emitted <$> List.filter kept (Git.diff repo commit rev))
               (add_events [progress title] w).
Proof.
  intros Hrun.
  destruct (PyStr.has_nl (Git.message commit)
            && forallb diff_ok (Git.diff repo commit rev)) eqn:E.
  - apply andb_prop in E as [En Ed].
    destruct (split_two_lines _ En) as (title & x & body & Hs).
    rewrite (process_commit_ok _ _ _ _ _ _ _ Hs Ed) in Hrun.
    injection Hrun as <- <-. by exists title, x, body.
  - destruct (process_commit_fail repo commit rev w E) as (e & w1 & He).
    congruence.
Qed.

Lemma commit_loop_ok repo commits : forall rev data w,
  commits_ok repo commits rev = true ->
  exists records objs evs,
    commit_loop repo commits rev data w
      = (inr (data ++ records), add_objects objs (add_events evs w))
    /\ Page.hash <$> records = Git.hexsha <$> commits
    /\ refs_live (heap w ++ objs) records.
Proof.
  induction commits as [|commit commits IH]; intros rev data w H; simpl in *.
  - exists [], [], []. rewrite app_nil_r, add_events_nil, add_objects_nil.
    repeat split. constructor.
  - apply andb_prop in H as [H Hrest]. apply andb_prop in H as [Hn Hd].
    destruct (split_two_lines _ Hn) as (title & x & body & Hs).
    rewrite (bind_inr _ _ _ _ _ (process_commit_ok repo commit rev _ _ _ w Hs Hd)).
    set (r := record_of repo commit rev title body (length (heap w))).
    set (o := emitted <$> List.filter kept (Git.diff repo commit rev)).
    destruct (IH (Git.RevCommit commit) (data ++ [r])
                (add_objects o (add_events [progress title] w)) Hrest)
      as (records & objs & evs & Hrun & Hh & Hl).
    exists (r :: records), (o ++ objs), ([progress title] ++ evs).
    split; [|split].
    + rewrite Hrun. f_equal.
      * by rewrite <- app_assoc.
      * unfold add_objects, add_events. simpl. by rewrite <- !app_assoc.
    + rewrite !fmap_cons. by f_equal.
    + rewrite heap_add_objects, heap_add_events in Hl.
      rewrite <- app_assoc in Hl.
      unfold refs_live in *. constructor; [|done].
      apply Forall_forall. intros l Hin. subst r. simpl in Hin.
      apply elem_of_seq in Hin. subst o.
      rewrite !length_app, length_fmap. lia.
Qed.

Lemma commit_loop_fail repo commits : forall rev data w,
  commits_ok repo commits rev = false ->
  exists e w', commit_loop repo commits rev data w = (inl e, w').
Proof.
  induction commits as [|commit commits IH]; intros rev data w H; simpl in *;
    [done|].
  destruct (PyStr.has_nl (Git.message commit)
            && forallb diff_ok (Git.diff repo commit rev)) eqn:E; simpl in H.
  - apply andb_prop in E as [En Ed].
    destruct (split_two_lines _ En) as (title & x & body & Hs).
    erewrite bind_inr by (by eapply process_commit_ok). by apply IH.
  - destruct (process_commit_fail repo commit rev w E) as (e & w1 & He).
    erewrite bind_inl by done. eauto.
Qed.

(** The run stops at the first commit whose message has no line break. *)
Lemma commit_loop_bare repo pre : forall commit post rev data w,
  commits_ok repo pre rev = true ->
  PyStr.has_nl (Git.message commit) = false ->
  exists w', commit_loop repo (pre ++ commit :: post) rev data w
             = (inl ValueError, w').
Proof.
  induction pre as [|c pre IH]; intros commit post rev data w H Hn; simpl in *.
  - erewrite bind_inl by (by apply process_commit_bare). eauto.
  - apply andb_prop in H as [H Hrest]. apply andb_prop in H as [Hc Hd].
    destruct (split_two_lines _ Hc) as (title & x & body & Hs).
    erewrite bind_inr by (by eapply process_commit_ok). by apply IH.
Qed.

Lemma commits_ok_has_nl repo commits : forall rev commit,
  commits_ok repo commits rev = true -> commit ∈ commits ->
  PyStr.has_nl (Git.message commit) = true.
Proof.
  induction commits as [|c commits IH]; intros rev commit H Hin; simpl in *.
  - by apply elem_of_nil in Hin.
  - apply andb_prop in H as [H Hrest]. apply andb_prop in H as [Hc Hd].
    apply elem_of_cons in Hin as [->|Hin]; [done|]. by eapply IH.
Qed.

Lemma nil_or_not {A} (l : list A) : l = [] \/ l <> [].
Proof. destruct l; [by left|by right]. Qed.

Lemma extract_unfold repo_path repo w :
  Repo repo_path = Some repo ->
  Git.iter_commits repo <> [] ->
  extract_repo_data repo_path w
  = commit_loop repo (reverse (Git.iter_commits repo)) (Git.RevHash empty_tree) [] w.
Proof.
  intros H Hne. unfold extract_repo_data. rewrite H.
  cbv beta iota delta [mbind M_bind bind ret raise iter_commits].
  destruct (Git.iter_commits repo) as [|c l]; [done|reflexivity].
Qed.

(** A repository without commits stops extraction before the loop. *)
Lemma extract_empty repo_path repo w :
  Repo repo_path = Some repo ->
  Git.iter_commits repo = [] ->
  extract_repo_data repo_path w = (inl ValueError, w).
Proof.
  intros H He. unfold extract_repo_data. rewrite H.
  cbv beta iota delta [mbind M_bind bind ret raise iter_commits].
  by rewrite He.
Qed.

End Extraction.

Section Rendering.

Context `{L : Lib}.

Lemma toc_loop_spec data : forall toc,
  toc_loop data toc = toc ++ (toc_entry <$> data).
Proof.
  induction data as [|page data IH]; intros toc; simpl.
  - by rewrite app_nil_r.
  - rewrite IH, <- app_assoc. done.
Qed.

Lemma seq_lookup_total (objs : list Change.t) : forall h : list Change.t,
  (fun l => (h ++ objs) !!! l) <$> seq (length h) (length objs) = objs.
Proof.
  induction objs as [|o objs IH]; intros h; simpl; [done|].
  f_equal.
  - by apply list_lookup_total_middle.
  - specialize (IH (h ++ [o])). rewrite length_app in IH. simpl in IH.
    rewrite <- app_assoc in IH. simpl in IH.
    by replace (length h + 1) with (S (length h)) in IH by lia.
Qed.

Lemma changes_loop_spec cs : forall acc w,
  exists objs,
    changes_loop cs acc w
      = (inr (acc ++ seq (length (heap w)) (length cs)), add_objects objs w)
    /\ length objs = length cs
    /\ forall h0 extra, heap w = h0 ++ extra ->
         Forall (fun l => l < length h0) cs ->
         objs = (fun l => html_change (h0 !!! l)) <$> cs.
Proof.
  induction cs as [|c cs IH]; intros acc w; simpl.
  - exists []. rewrite app_nil_r, add_objects_nil. by repeat split.
  - unfold deref, alloc. run.
    set (o := {| Change.path := Change.path (heap w !!! c); Change.diff := _ |}).
    destruct (IH (acc ++ [length (heap w)]) (add_objects [o] w))
      as (objs & Hrun & Hlen & Hlive).
    exists (o :: objs). rewrite Hrun. split; [|split].
    + rewrite heap_add_objects, length_app, add_objects_app, <- app_assoc. simpl.
      by replace (length (heap w) + 1) with (S (length (heap w))) by lia.
    + simpl. by rewrite Hlen.
    + intros h0 extra Hh Hall. apply Forall_cons in Hall as [Hc Hall].
      simpl. f_equal.
      * subst o. unfold html_change. rewrite Hh.
        by rewrite lookup_total_app_l.
      * apply (Hlive h0 (extra ++ [o])); [|done].
        by rewrite heap_add_objects, Hh, <- app_assoc.
Qed.

Lemma replay_app e1 : forall e2 fs, replay (e1 ++ e2) fs = replay e2 (replay e1 fs).
Proof.
  induction e1 as [|[] e1 IH]; intros e2 fs; simpl; by rewrite ?IH.
Qed.

Lemma page_loop_spec template toc data : forall generate_index w,
  exists objs views,
    page_loop template toc data generate_index w
      = (inr tt,
         {| heap := heap w ++ objs;
            files := replay (page_events template generate_index views) (files w);
            dirs := dirs w;
            trace := trace w ++ page_events template generate_index views |})
    /\ Forall2 (shows toc) data views
    /\ forall h0 extra, heap w = h0 ++ extra -> refs_live h0 data ->
         views = page_view toc h0 <$> data.
Proof.
  induction data as [|page data IH]; intros generate_index w.
  - exists [], []. simpl. unfold ret. rewrite !app_nil_r.
    destruct w. by repeat split.
  - simpl.
    destruct (changes_loop_spec (Page.changes page) [] w)
      as (o1 & Hrun1 & Hlen1 & Hlive1).
    rewrite (bind_inr _ _ _ _ _ Hrun1). simpl.
    set (ctx := {| Context.title := Page.title page; Context.hash := _;
                   Context.body := _; Context.toc := _; Context.changes := _ |}).
    set (v := view_context (heap w ++ o1) ctx).
    assert (Hv : v = {| Context.v_title := Page.title page;
                        Context.v_hash := Page.hash page;
                        Context.v_body := render_markdown (Page.body page);
                        Context.v_toc := toc;
                        Context.v_changes := o1 |}).
    { subst v ctx. unfold view_context. simpl. f_equal.
      rewrite <- Hlen1. apply seq_lookup_total. }
    set (w1 := add_events
                 ([EvRender v;
                   EvWrite (page_file (Page.title page)) (Template_render template v)]
                  ++ (if generate_index
                      then [EvRender v;
                            EvWrite (in_output "index.html") (Template_render template v)]
                      else []))
                 (add_objects o1 w)).
    set (fs1 := replay [EvWrite (page_file (Page.title page)) (Template_render template v)]
                  (files w)).
    set (fs2 := if generate_index
                then <[in_output "index.html" := Template_render template v]> fs1
                else fs1).
    destruct (IH false {| heap := heap w ++ o1; files := fs2; dirs := dirs w;
                          trace := trace w1 |})
      as (objs & views & Hrun & Hshow & Hlive).
    exists (o1 ++ objs), (v :: views). split; [|split].
    + unfold render, write_file. run. fold v.
      destruct generate_index; run; fold v.
      * unfold add_events, put_file, add_objects in *. simpl in *.
        subst fs2 fs1 w1. simpl in *.
        replace (Context.v_title v) with (Page.title page) by (by rewrite Hv).
        rewrite <- !app_assoc in *. simpl in *.
        etrans; [|etrans; [exact Hrun|]]; [done|]. do 2 f_equal.
      * unfold add_events, put_file, add_objects in *. simpl in *.
        subst fs2 fs1 w1. simpl in *.
        replace (Context.v_title v) with (Page.title page) by (by rewrite Hv).
        rewrite <- !app_assoc in *. simpl in *.
        etrans; [|etrans; [exact Hrun|]]; [done|]. do 2 f_equal.
    + constructor; [|done]. rewrite Hv. by repeat split.
    + intros h0 extra Hh Hall. apply Forall_cons in Hall as [Hp Hall].
      simpl. f_equal.
      * rewrite Hv. unfold page_view. f_equal.
        by rewrite (Hlive1 h0 extra Hh Hp).
      * apply (Hlive h0 (extra ++ o1)); [|done]. simpl.
        by rewrite Hh, <- app_assoc.
Qed.

Lemma render_repo_data_spec data w tpl css :
  files w !! base_html = Some tpl ->
  files w !! styles = Some css ->
  exists objs views,
    render_repo_data data w
      = (inr tt,
         {| heap := heap w ++ objs;
            files := replay (setup_events w css ++ page_events tpl true views)
                       (files w);
            dirs := if present output_dir w then dirs w
                    else {[output_dir]} ∪ dirs w;
            trace := trace w ++ setup_events w css ++ page_events tpl true views |})
    /\ Forall2 (shows (toc_entry <$> data)) data views
    /\ (refs_live (heap w) data ->
        views = page_view (toc_entry <$> data) (heap w) <$> data).
Proof.
  intros Ht Hc. unfold render_repo_data.
  unfold read_file at 1. run. rewrite Ht.
  unfold path_exists. fold (present output_dir w).
  rewrite toc_loop_spec. simpl.
  set (w1 := if present output_dir w then w
             else add_events [EvMkdir output_dir] (add_dir output_dir w)).
  set (w2 := add_events [EvWrite (in_output "styles.css") css]
               (put_file (in_output "styles.css") css w1)).
  destruct (page_loop_spec tpl (toc_entry <$> data) data true w2)
    as (objs & views & Hrun & Hshow & Hlive).
  exists objs, views. split; [|split; [done|]].
  - unfold setup_events, copy, read_file, write_file, mkdir. run.
    destruct (present output_dir w); run; rewrite Hc; subst w2 w1;
      rewrite Hrun; unfold add_events, put_file, add_dir; simpl;
      rewrite ?replay_app, <- ?app_assoc; done.
  - intros Hl. apply (Hlive (heap w) []); [|done].
    subst w2 w1. destruct (present output_dir w); simpl; by rewrite app_nil_r.
Qed.

End Rendering.

(** ** Claims about extraction *)

Section ExtractionClaims.

Context `{L : Lib}.

(** C1 (amended). A repository with at least one commit, whose commits all
    have a line break in their message and whose diff entries the loop body
    gets through, gives exactly one record per commit, in oldest-first
    order (the reverse of [iter_commits]), the k-th record carrying the
    hash of the k-th commit in that order; on any other repository, one
    without commits included, extraction raises and returns no record. *)
Theorem records_follow_commits (repo_path : string) (repo : Git.Repo) (w : World) :
  Repo repo_path = Some repo ->
  let commits := reverse (Git.iter_commits repo) in
  if goes_through repo then
    exists data w',
      extract_repo_data repo_path w = (inr data, w')
      /\ length data = length (Git.iter_commits repo)
      /\ 0 < length data
      /\ forall k commit, commits !! k = Some commit ->
           Page.hash <$> data !! k = Some (Git.hexsha commit)
  else
    exists e w', extract_repo_data repo_path w = (inl e, w').
Proof.
  intros Hrepo commits.
  destruct (nil_or_not (Git.iter_commits repo)) as [He|Hne].
  { unfold goes_through. rewrite He.
    rewrite (extract_empty _ _ _ Hrepo He). eauto. }
  rewrite (extract_unfold _ _ _ Hrepo Hne). fold commits.
  assert (Hg : goes_through repo
               = commits_ok repo commits (Git.RevHash empty_tree)).
  { unfold goes_through, commits. by destruct (Git.iter_commits repo). }
  rewrite Hg.
  destruct (commits_ok repo commits (Git.RevHash empty_tree)) eqn:Hok.
  - destruct (commit_loop_ok repo commits (Git.RevHash empty_tree) [] w Hok)
      as (records & objs & evs & Hrun & Hh & _).
    exists records, (add_objects objs (add_events evs w)).
    assert (Hlen : length records = length (Git.iter_commits repo)).
    { rewrite <- (length_fmap Page.hash), Hh, length_fmap.
      unfold commits. by rewrite length_reverse. }
    split; [exact Hrun|]. split; [exact Hlen|]. split.
    + rewrite Hlen. destruct (Git.iter_commits repo); [done|simpl; lia].
    + intros k commit Hk. rewrite <- list_lookup_fmap, Hh, list_lookup_fmap.
      by rewrite Hk.
  - by apply commit_loop_fail.
Qed.

(** The references [seq] lists, read in a heap that has grown since. *)
Lemma seq_lookup_total_mid (objs : list Change.t) (h rest : list Change.t) :
  (fun l => (h ++ objs ++ rest) !!! l) <$> seq (length h) (length objs) = objs.
Proof.
  etransitivity; [|exact (seq_lookup_total objs h)].
  apply list_fmap_ext. intros i l Hl.
  apply lookup_seq in Hl as [-> Hi].
  rewrite app_assoc. apply lookup_total_app_l. rewrite length_app. lia.
Qed.

(** The changes of the records of a run of the loop that goes through, read
    in the heap the run leaves. *)
Lemma commit_loop_changes repo commits : forall rev data w records w',
  commit_loop repo commits rev data w = (inr records, w') ->
  exists new objs,
    records = data ++ new
    /\ length new = length commits
    /\ heap w' = heap w ++ objs
    /\ forall k commit record,
         commits !! k = Some commit -> new !! k = Some record ->
         (fun l => heap w' !!! l) <$> Page.changes record
         = emitted <$> List.filter kept
                         (Git.diff repo commit (rev_before rev commits k)).
Proof.
  induction commits as [|commit commits IH]; intros rev data w records w' Hrun;
    simpl in Hrun.
  - injection Hrun as <- <-. exists [], []. rewrite !app_nil_r.
    repeat split. intros k commit record Hk. by rewrite lookup_nil in Hk.
  - destruct (process_commit repo commit rev w) as [[e|r] w1] eqn:Hp.
    { rewrite (bind_inl _ _ _ _ _ Hp) in Hrun. discriminate. }
    rewrite (bind_inr _ _ _ _ _ Hp) in Hrun.
    apply process_commit_inv in Hp as (title & x & body & _ & _ & -> & ->).
    set (o := emitted <$> List.filter kept (Git.diff repo commit rev)) in *.
    apply IH in Hrun as (new & objs & -> & Hlen & Hheap & Hall).
    rewrite heap_add_objects, heap_add_events in Hheap.
    exists (record_of repo commit rev title body (length (heap w)) :: new),
      (o ++ objs).
    split; [by rewrite <- app_assoc|]. split; [simpl; by rewrite Hlen|].
    split; [by rewrite Hheap, <- app_assoc|].
    intros [|k] c record Hc Hr; simpl in Hc, Hr.
    + injection Hc as <-. injection Hr as <-. rewrite Hheap. simpl.
      rewrite <- app_assoc. subst o.
      rewrite <- (length_fmap emitted). apply seq_lookup_total_mid.
    + simpl. by apply Hall.
Qed.

(** C2 (amended). With the two sides of the entries of [commit.diff(rev)]
    filled as GitPython fills them, side a from the tree of the commit and
    side b from the tree of the revision it is compared with, every entry
    of a commit that is not skipped gives one change dictionary of its
    record, in order; the diff of the dictionary is the unified diff with
    the lines of the blob of the previous revision as the from side and the
    lines of the blob of the current commit as the to side, an absent blob
    giving no lines, and the path of the file as both labels. *)
Theorem diff_sides (blob_at : Git.Rev -> string -> option Git.Blob)
  (repo_path : string) (repo : Git.Repo) (w : World) (data : list Page.t)
  (w' : World) (k : nat) (commit : Git.Commit) (record : Page.t) :
  Repo repo_path = Some repo ->
  sides_of_trees blob_at repo ->
  extract_repo_data repo_path w = (inr data, w') ->
  reverse (Git.iter_commits repo) !! k = Some commit ->
  data !! k = Some record ->
  let current := Git.RevCommit commit in
  let previous := previous_revision repo k in
  Forall2
    (fun d change =>
       exists path_a path_b,
         Git.a_blob d = blob_at current path_a
         /\ Git.b_blob d = blob_at previous path_b
         /\ change
            = {| Change.path := diff_label d;
                 Change.diff := String.concat PyStr.NL
                   (unified_diff (side_lines (blob_at previous path_b))
                      (side_lines (blob_at current path_a))
                      (diff_label d) (diff_label d)) |})
    (List.filter (fun d => negb (skipped d)) (Git.diff repo commit previous))
    ((fun l => heap w' !!! l) <$> Page.changes record).
Proof.
  intros Hrepo Hsides Hrun Hk Hr current previous.
  assert (Hne : Git.iter_commits repo <> []).
  { intros E. by rewrite E in Hk. }
  rewrite (extract_unfold _ _ _ Hrepo Hne) in Hrun.
  apply commit_loop_changes in Hrun as (new & objs & -> & _ & _ & Hall).
  rewrite (Hall k commit record Hk Hr).
  fold (previous_revision repo k). fold previous.
  apply Forall2_fmap_r, Forall_Forall2_diag, Forall_forall.
  intros d Hd. apply list_elem_of_In, filter_In in Hd as [Hd _].
  apply list_elem_of_In in Hd.
  destruct (Hsides k commit d Hk Hd) as (path_a & path_b & Ha & Hb).
  exists path_a, path_b. split; [done|]. split; [done|].
  unfold emitted. fold current previous in Ha, Hb.
  by rewrite join_concat, <- Ha, <- Hb.
Qed.

(** C3. The message of a commit is the join, with line breaks, of exactly
    one sequence of lines that hold no line break; the title of the record
    is line 0 of that sequence and its body the join, with line breaks, of
    the lines from index 2 on, the line at index 1 being dropped; the
    message "Fix bug", empty line, "Details here" gives the title "Fix bug"
    and the body "Details here".  The record is there whenever the message
    has a line break and the diff entries go through. *)
Theorem title_and_body (repo : Git.Repo) (commit : Git.Commit) (rev : Git.Rev)
  (w : World) :
  (forall record w',
     process_commit repo commit rev w = (inr record, w') ->
     (exists lines,
        Forall (fun line => PyStr.has_nl line = false) lines
        /\ Git.message commit = String.concat PyStr.NL lines
        /\ lines !! 0 = Some (Page.title record)
        /\ Page.body record = String.concat PyStr.NL (drop 2 lines))
     /\ (forall lines,
           Forall (fun line => PyStr.has_nl line = false) lines ->
           lines <> [] ->
           Git.message commit = String.concat PyStr.NL lines ->
           lines !! 0 = Some (Page.title record)
           /\ Page.body record = String.concat PyStr.NL (drop 2 lines))
     /\ (Git.message commit
           = "Fix bug" +:+ PyStr.NL +:+ PyStr.NL +:+ "Details here" ->
         Page.title record = "Fix bug" /\ Page.body record = "Details here"))
  /\ (PyStr.has_nl (Git.message commit) = true ->
      forallb diff_ok (Git.diff repo commit rev) = true ->
      exists record w', process_commit repo commit rev w = (inr record, w')).
Proof.
  split.
  - intros record w' Hrun.
    apply process_commit_inv in Hrun as (title & x & body & Hs & _ & -> & _).
    split; [|split].
    + exists (PyStr.split (Git.message commit)).
      split; [apply split_no_nl|].
      split; [by rewrite <- join_concat, join_split|].
      rewrite Hs. simpl. split; [done|]. apply join_concat.
    + intros lines Hlines Hne Hm. rewrite Hm, (split_concat _ Hne Hlines) in Hs.
      subst lines. simpl. split; [done|]. apply join_concat.
    + intros Hm. rewrite Hm in Hs. vm_compute in Hs.
      injection Hs as <- _ <-. by split.
  - intros Hn Hd. destruct (split_two_lines _ Hn) as (title & x & body & Hs).
    rewrite (process_commit_ok _ _ _ _ _ _ w Hs Hd). eauto.
Qed.

(** C4. An entry with a present blob whose MIME type does not start with
    "text" gives no change dictionary: the loop goes on as if the entry
    were not there; a commit whose only entry is such an entry gets a
    record with no changes. *)
Theorem binary_entries_skipped (d : Git.Diff) (w : World) :
  skipped d = true ->
  change_of_diff d w = (inr None, w)
  /\ (forall rest changes, diff_loop (d :: rest) changes w = diff_loop rest changes w)
  /\ (forall repo commit rev title x body,
        Git.diff repo commit rev = [d] ->
        PyStr.split (Git.message commit) = title :: x :: body ->
        exists record,
          process_commit repo commit rev w
            = (inr record, add_events [progress title] w)
          /\ Page.changes record = []).
Proof.
  intros Hs. split; [by apply change_of_diff_skipped|]. split.
  - intros rest changes. simpl.
    by rewrite (bind_inr _ _ _ _ _ (change_of_diff_skipped d w Hs)).
  - intros repo commit rev title x body Hd Hm.
    assert (Hok : forallb diff_ok (Git.diff repo commit rev) = true).
    { rewrite Hd. simpl. unfold diff_ok. by rewrite Hs. }
    rewrite (process_commit_ok _ _ _ _ _ _ w Hm Hok).
    assert (Hk : List.filter kept (Git.diff repo commit rev) = []).
    { rewrite Hd. simpl. unfold kept. by rewrite Hs. }
    eexists. split.
    + f_equal. rewrite Hk. simpl. apply add_objects_nil.
    + unfold record_of. simpl. by rewrite Hk.
Qed.

(** C10. A commit whose message has no line break makes the loop body
    raise the unpacking error before anything else happens; the run then
    stops there, with that error when the commits before it went through;
    so extraction returns only if every message has a line break. *)
Theorem single_line_message_aborts (repo_path : string) (repo : Git.Repo)
  (k : nat) (commit : Git.Commit) (w : World) :
  Repo repo_path = Some repo ->
  Git.iter_commits repo !! k = Some commit ->
  PyStr.has_nl (Git.message commit) = false ->
  (forall rev w0, process_commit repo commit rev w0 = (inl ValueError, w0))
  /\ (exists e w', extract_repo_data repo_path w = (inl e, w'))
  /\ (forall pre post,
        reverse (Git.iter_commits repo) = pre ++ commit :: post ->
        commits_ok repo pre (Git.RevHash empty_tree) = true ->
        exists w', extract_repo_data repo_path w = (inl ValueError, w')).
Proof.
  intros Hrepo Hin Hn.
  assert (Hne : Git.iter_commits repo <> []) by (intros E; by rewrite E in Hin).
  rewrite (extract_unfold _ _ _ Hrepo Hne).
  split; [|split].
  - intros rev w0. by apply process_commit_bare.
  - apply commit_loop_fail.
    destruct (commits_ok _ _ _) eqn:Hok; [|done].
    assert (Hc : PyStr.has_nl (Git.message commit) = true).
    { eapply commits_ok_has_nl; [exact Hok|]. apply elem_of_reverse.
      by eapply list_elem_of_lookup_2. }
    congruence.
  - intros pre post -> Hpre. by apply commit_loop_bare.
Qed.

End ExtractionClaims.

(** ** The trace of a rendering *)

Lemma length_append (a b : string) :
  String.length (a +:+ b) = String.length a + String.length b.
Proof. induction a as [|c a IH]; simpl; [done|]. by rewrite IH. Qed.

Lemma append_inv_tail (t : string) : forall s1 s2 : string,
  s1 +:+ t = s2 +:+ t -> s1 = s2.
Proof.
  pose proof length_append as Hlen.
  induction s1 as [|c s1 IH]; intros [|c' s2] H.
  - done.
  - apply (f_equal String.length) in H. rewrite !Hlen in H. simpl in H. lia.
  - apply (f_equal String.length) in H. rewrite !Hlen in H. simpl in H. lia.
  - injection H as -> H. f_equal. by apply IH.
Qed.

Lemma writes_to_app p e1 : forall e2,
  writes_to p (e1 ++ e2) = writes_to p e1 ++ writes_to p e2.
Proof.
  induction e1 as [|[] e1 IH]; intros e2; simpl; rewrite ?IH; try done.
  by destruct (String.eqb _ _).
Qed.

Lemma rendered_app e1 : forall e2, rendered (e1 ++ e2) = rendered e1 ++ rendered e2.
Proof.
  induction e1 as [|[] e1 IH]; intros e2; simpl; by rewrite ?IH.
Qed.

(** A file holds what was written to it last. *)
Lemma replay_lookup p evs : forall fs,
  replay evs fs !! p
  = match last (writes_to p evs) with Some c => Some c | None => fs !! p end.
Proof.
  induction evs as [|[] evs IH]; intros fs; simpl; rewrite ?IH; try done.
  destruct (String.eqb_spec p p0) as [->|Hne].
  - rewrite last_cons. destruct (last _); [done|]. by rewrite lookup_insert_eq.
  - destruct (last _); [done|]. by rewrite lookup_insert_ne.
Qed.

Section RenderingTrace.

Context `{L : Lib}.

Lemma page_file_index title :
  page_file title = in_output "index.html" <-> slugify title = "index".
Proof.
  unfold page_file, in_output. split.
  - intros H. apply String.app_inj in H. apply String.app_inj in H.
    by apply (append_inv_tail ".html").
  - by intros ->.
Qed.

Lemma page_file_slug t1 t2 :
  page_file t1 = page_file t2 <-> slugify t1 = slugify t2.
Proof.
  unfold page_file, in_output. split.
  - intros H. apply String.app_inj in H. apply String.app_inj in H.
    by apply (append_inv_tail ".html").
  - by intros ->.
Qed.

Lemma rendered_page_events template views : forall generate_index v,
  v ∈ rendered (page_events template generate_index views) <-> v ∈ views.
Proof.
  induction views as [|v0 views IH]; intros generate_index v; simpl; [done|].
  destruct generate_index; simpl; rewrite !elem_of_cons, IH; tauto.
Qed.

(** Pages filed elsewhere leave [p] alone. *)
Lemma writes_to_other template p views :
  Forall (fun v => page_file (Context.v_title v) <> p) views ->
  writes_to p (page_events template false views) = [].
Proof.
  induction 1 as [|v views Hv _ IH]; simpl; [done|].
  destruct (String.eqb_spec p (page_file (Context.v_title v))); [congruence|done].
Qed.

Lemma writes_to_setup p w css :
  p <> in_output "styles.css" -> writes_to p (setup_events w css) = [].
Proof.
  intros Hp. unfold setup_events.
  destruct (present output_dir w); simpl;
    by destruct (String.eqb_spec p (in_output "styles.css")).
Qed.

(** The page written last under a slug is the one the file keeps. *)
Lemma last_write_page template views : forall generate_index j v,
  views !! j = Some v ->
  (forall k v', j < k -> views !! k = Some v' ->
     slugify (Context.v_title v') <> slugify (Context.v_title v)) ->
  last (writes_to (page_file (Context.v_title v))
          (page_events template generate_index views))
  = Some (Template_render template v).
Proof.
  induction views as [|v0 views IH]; intros generate_index j v Hj Hlater;
    [done|].
  destruct j as [|j]; simpl in Hj.
  - injection Hj as ->.
    assert (Hrest : writes_to (page_file (Context.v_title v))
                      (page_events template false views) = []).
    { apply writes_to_other. apply Forall_forall. intros v' Hin.
      apply list_elem_of_lookup in Hin as [k Hk].
      rewrite page_file_slug. apply (Hlater (S k)); [lia|done]. }
    simpl. rewrite String.eqb_refl.
    destruct generate_index; simpl; rewrite ?Hrest; [|done].
    by destruct (String.eqb _ _).
  - change (page_events template generate_index (v0 :: views))
      with (([EvRender v0;
              EvWrite (page_file (Context.v_title v0)) (Template_render template v0)]
             ++ (if generate_index
                 then [EvRender v0;
                       EvWrite (in_output "index.html") (Template_render template v0)]
                 else []))
            ++ page_events template false views).
    rewrite writes_to_app, last_app.
    rewrite (IH false j v Hj); [done|].
    intros k v' Hk Hv'. apply (Hlater (S k)); [lia|done].
Qed.

(** The page of an earlier record was written to its file. *)
Lemma page_written template views : forall generate_index i v,
  views !! i = Some v ->
  Template_render template v
  ∈ writes_to (page_file (Context.v_title v))
      (page_events template generate_index views).
Proof.
  induction views as [|v0 views IH]; intros generate_index i v Hi; [done|].
  destruct i as [|i]; simpl in Hi.
  - injection Hi as ->. simpl. rewrite String.eqb_refl. apply elem_of_cons. by left.
  - change (page_events template generate_index (v0 :: views))
      with (([EvRender v0;
              EvWrite (page_file (Context.v_title v0)) (Template_render template v0)]
             ++ (if generate_index
                 then [EvRender v0;
                       EvWrite (in_output "index.html") (Template_render template v0)]
                 else []))
            ++ page_events template false views).
    rewrite writes_to_app, elem_of_app. right. by eapply IH.
Qed.

End RenderingTrace.

(** ** Claims about rendering *)

Section RenderingClaims.

Context `{L : Lib}.

Lemma page_not_stylesheet title : page_file title <> in_output "styles.css".
Proof.
  unfold page_file, in_output. intros H.
  apply String.app_inj in H. apply String.app_inj in H.
  assert (Hlen : String.length (slugify title) = 5).
  { apply (f_equal String.length) in H. rewrite length_append in H.
    simpl in H. lia. }
  destruct (slugify title) as [|c0 [|c1 [|c2 [|c3 [|c4 [|c5 s]]]]]];
    simpl in Hlen; try lia.
  cbv in H. discriminate.
Qed.

Lemma shows_views toc data views :
  Forall2 (shows toc) data views ->
  forall (P : string -> Prop),
    Forall (fun page => P (Page.title page)) data ->
    Forall (fun v => P (Context.v_title v)) views.
Proof.
  induction 1 as [|page v data views (Ht & _) _ IH]; intros P HP; [done|].
  apply Forall_cons in HP as [Hp HP]. constructor; [by rewrite Ht|by apply IH].
Qed.

(** C5 (amended). For a non-empty sequence of records none of whose titles
    slugifies to [index], [index.html] is written exactly once, with the
    page rendered for the first record, the same content that is written
    first to the file of the first record's slug, and ends up holding it;
    when moreover no later record has a title with the slug of the first
    one, that file is written once too, and the two files end up with the
    same content. *)
Theorem index_from_first_record (data : list Page.t) (first : Page.t)
  (rest : list Page.t) (w : World) (tpl css : string) :
  data = first :: rest ->
  files w !! base_html = Some tpl ->
  files w !! styles = Some css ->
  Forall (fun page => slugify (Page.title page) <> "index") data ->
  exists w' evs v,
    render_repo_data data w = (inr tt, w')
    /\ trace w' = trace w ++ evs
    /\ shows (toc_entry <$> data) first v
    /\ writes_to (in_output "index.html") evs = [Template_render tpl v]
    /\ head (writes_to (page_file (Page.title first)) evs)
       = Some (Template_render tpl v)
    /\ files w' !! in_output "index.html" = Some (Template_render tpl v)
    /\ (Forall (fun page => slugify (Page.title page)
                            <> slugify (Page.title first)) rest ->
        writes_to (page_file (Page.title first)) evs = [Template_render tpl v]
        /\ files w' !! page_file (Page.title first)
           = files w' !! in_output "index.html").
Proof.
  intros Hdata Ht Hc Hslug.
  destruct (render_repo_data_spec data w tpl css Ht Hc)
    as (objs & views & Hrun & Hshow & _).
  rewrite Hdata in Hshow at 2. apply Forall2_cons_inv_l in Hshow
    as (v & vs & Hv & Hvs & ->).
  assert (Hidx : Forall (fun v' => page_file (Context.v_title v')
                                   <> in_output "index.html") (v :: vs)).
  { assert (Hall : Forall2 (shows (toc_entry <$> data)) data (v :: vs)).
    { rewrite Hdata at 2. by constructor. }
    eapply Forall_impl;
      [exact (shows_views _ _ _ Hall (fun t => slugify t <> "index") Hslug)|].
    intros v' Hv'. simpl in Hv'. by rewrite page_file_index. }
  apply Forall_cons in Hidx as [Hidx0 Hidxs].
  assert (Htitle : Context.v_title v = Page.title first) by apply Hv.
  assert (Hw : writes_to (in_output "index.html")
                 (setup_events w css ++ page_events tpl true (v :: vs))
               = [Template_render tpl v]).
  { rewrite writes_to_app, writes_to_setup by done. simpl.
    destruct (String.eqb_spec (in_output "index.html")
                (page_file (Context.v_title v))); [congruence|].
    rewrite ?String.eqb_refl. by rewrite writes_to_other. }
  assert (Hfile : replay (setup_events w css ++ page_events tpl true (v :: vs))
                    (files w) !! in_output "index.html"
                  = Some (Template_render tpl v)).
  { rewrite replay_lookup. by rewrite Hw. }
  eexists _, _, v. split; [exact Hrun|]. cbn [trace files heap dirs].
  split; [done|]. split; [done|]. split; [exact Hw|]. split; [|split].
  - rewrite writes_to_app, writes_to_setup by apply page_not_stylesheet.
    simpl. rewrite Htitle. by rewrite String.eqb_refl.
  - exact Hfile.
  - intros Hrest.
    assert (Hothers : Forall (fun v' => page_file (Context.v_title v')
                                        <> page_file (Page.title first)) vs).
    { eapply Forall_impl;
        [exact (shows_views _ _ _ Hvs
                  (fun t => slugify t <> slugify (Page.title first)) Hrest)|].
      intros v' Hv'. simpl in Hv'. by rewrite page_file_slug. }
    assert (Hp : writes_to (page_file (Page.title first))
                   (setup_events w css ++ page_events tpl true (v :: vs))
                 = [Template_render tpl v]).
    { rewrite writes_to_app, writes_to_setup by apply page_not_stylesheet.
      simpl. rewrite Htitle, String.eqb_refl.
      destruct (String.eqb_spec (page_file (Page.title first))
                  (in_output "index.html")) as [E|_].
      { rewrite <- Htitle in E. by destruct Hidx0. }
      by rewrite writes_to_other. }
    split; [exact Hp|]. rewrite Hfile, replay_lookup. by rewrite Hp.
Qed.

(** C6. When two records have titles with the same slug, rendering goes
    through, the page of the earlier one is written to the file of that
    slug, and the file ends up holding the page of the record processed
    last under that slug. *)
Theorem later_page_overwrites (data : list Page.t) (w : World) (tpl css : string)
  (i j : nat) (ri rj : Page.t) :
  files w !! base_html = Some tpl ->
  files w !! styles = Some css ->
  refs_live (heap w) data ->
  data !! i = Some ri ->
  data !! j = Some rj ->
  i < j ->
  slugify (Page.title ri) = slugify (Page.title rj) ->
  (forall k rk, j < k -> data !! k = Some rk ->
     slugify (Page.title rk) <> slugify (Page.title rj)) ->
  let html := fun page =>
    Template_render tpl (page_view (toc_entry <$> data) (heap w) page) in
  exists w' evs,
    render_repo_data data w = (inr tt, w')
    /\ trace w' = trace w ++ evs
    /\ html ri ∈ writes_to (page_file (Page.title rj)) evs
    /\ last (writes_to (page_file (Page.title rj)) evs) = Some (html rj)
    /\ files w' !! page_file (Page.title rj) = Some (html rj).
Proof.
  intros Ht Hc Hlive Hi Hj Hij Hslug Hlast html.
  destruct (render_repo_data_spec data w tpl css Ht Hc)
    as (objs & views & Hrun & _ & Hviews).
  specialize (Hviews Hlive). subst views.
  set (toc := toc_entry <$> data) in *.
  set (views := page_view toc (heap w) <$> data) in *.
  assert (Hvj : views !! j = Some (page_view toc (heap w) rj)).
  { unfold views. by rewrite list_lookup_fmap, Hj. }
  assert (Hvi : views !! i = Some (page_view toc (heap w) ri)).
  { unfold views. by rewrite list_lookup_fmap, Hi. }
  assert (Hl : last (writes_to (page_file (Page.title rj))
                       (setup_events w css ++ page_events tpl true views))
               = Some (html rj)).
  { rewrite writes_to_app, last_app.
    rewrite (last_write_page tpl views true j _ Hvj); [done|].
    intros k v' Hk Hv'. unfold views in Hv'.
    rewrite list_lookup_fmap in Hv'.
    destruct (data !! k) as [rk|] eqn:Ek; [|done].
    injection Hv' as <-. simpl. by apply (Hlast k). }
  eexists _, _. split; [exact Hrun|]. cbn [trace files heap dirs].
  split; [done|]. split; [|split; [exact Hl|]].
  - rewrite writes_to_app, elem_of_app. right.
    replace (page_file (Page.title rj)) with (page_file (Page.title ri))
      by (by apply page_file_slug).
    exact (page_written tpl views true i _ Hvi).
  - rewrite replay_lookup. by rewrite Hl.
Qed.

Lemma render_heap data w :
  exists objs, heap (render_repo_data data w).2 = heap w ++ objs.
Proof.
  destruct (files w !! base_html) as [tpl|] eqn:Ht.
  - destruct (files w !! styles) as [css|] eqn:Hc.
    + destruct (render_repo_data_spec data w tpl css Ht Hc)
        as (objs & views & -> & _).
      by exists objs.
    + exists []. unfold render_repo_data, read_file at 1, path_exists. run.
      rewrite Ht. unfold copy, read_file, mkdir. run.
      destruct (_ || _); simpl; rewrite Hc; simpl; by rewrite app_nil_r.
  - exists []. unfold render_repo_data, read_file at 1. run.
    rewrite Ht. simpl. by rewrite app_nil_r.
Qed.

(** C7 (amended). Rendering leaves every change dictionary that exists
    when it starts as it is, whatever the outcome; the HTML rendering of a
    diff goes into the changes of the context the template is given, next
    to the path of the change it was rendered from. *)
Theorem render_leaves_changes (data : list Page.t) (w : World) :
  (forall l c, heap w !! l = Some c ->
     heap (render_repo_data data w).2 !! l = Some c)
  /\ (forall tpl css,
        files w !! base_html = Some tpl ->
        files w !! styles = Some css ->
        refs_live (heap w) data ->
        exists w' evs,
          render_repo_data data w = (inr tt, w')
          /\ trace w' = trace w ++ evs
          /\ forall page, page ∈ data ->
               exists v, v ∈ rendered evs
                 /\ Context.v_title v = Page.title page
                 /\ Context.v_hash v = Page.hash page
                 /\ Context.v_changes v
                    = (fun l =>
                         {| Change.path := Change.path (heap w !!! l);
                            Change.diff := render_markdown
                              ("``` diff" +:+ PyStr.NL
                               +:+ Change.diff (heap w !!! l)
                               +:+ PyStr.NL +:+ "```") |})
                      <$> Page.changes page).
Proof.
  split.
  - intros l c Hl. destruct (render_heap data w) as [objs ->].
    by apply lookup_app_l_Some.
  - intros tpl css Ht Hc Hlive.
    destruct (render_repo_data_spec data w tpl css Ht Hc)
      as (objs & views & Hrun & _ & Hviews).
    specialize (Hviews Hlive). subst views.
    eexists _, _. split; [exact Hrun|]. cbn [trace files heap dirs]. split; [done|].
    intros page Hin.
    exists (page_view (toc_entry <$> data) (heap w) page).
    split; [|done].
    rewrite rendered_app, elem_of_app. right.
    apply rendered_page_events. by apply list_elem_of_fmap_2.
Qed.

(** C8. The table of contents has one entry per record, in the order of
    the records, with the title and the path [./<slug>.html]; every call of
    the template gets that same table, and every record gets its call. *)
Theorem toc_shared_by_pages (data : list Page.t) (w : World) (tpl css : string) :
  files w !! base_html = Some tpl ->
  files w !! styles = Some css ->
  let toc :=
    (fun page =>
       {| Toc.title := Page.title page;
          Toc.path := "./" +:+ slugify (Page.title page) +:+ ".html" |})
    <$> data in
  toc_loop data [] = toc
  /\ exists w' evs,
       render_repo_data data w = (inr tt, w')
       /\ trace w' = trace w ++ evs
       /\ (forall v, v ∈ rendered evs -> Context.v_toc v = toc)
       /\ (forall page, page ∈ data ->
             exists v, v ∈ rendered evs
               /\ Context.v_title v = Page.title page
               /\ Context.v_hash v = Page.hash page).
Proof.
  intros Ht Hc toc. split; [by rewrite toc_loop_spec|].
  destruct (render_repo_data_spec data w tpl css Ht Hc)
    as (objs & views & Hrun & Hshow & _).
  eexists _, _. split; [exact Hrun|]. cbn [trace files heap dirs]. split; [done|]. split.
  - intros v Hv. rewrite rendered_app, elem_of_app in Hv.
    destruct Hv as [Hv|Hv].
    + unfold setup_events in Hv. destruct (present output_dir w); simpl in Hv;
        by apply elem_of_nil in Hv.
    + apply rendered_page_events in Hv.
      apply list_elem_of_lookup in Hv as [k Hk].
      destruct (Forall2_lookup_r _ _ _ _ _ Hshow Hk) as (page & _ & Hp).
      apply Hp.
  - intros page Hin. apply list_elem_of_lookup in Hin as [k Hk].
    destruct (Forall2_lookup_l _ _ _ _ _ Hshow Hk) as (v & Hv & Hp).
    exists v. split; [|split; apply Hp].
    rewrite rendered_app, elem_of_app. right.
    apply rendered_page_events. by eapply list_elem_of_lookup_2.
Qed.

(** C9. Without a positional argument the program writes a message to
    standard output and exits with code 1; with an argument naming a path
    that is not there it writes a message to standard error and exits with
    code 1; in both cases that message is all that happens. *)
Theorem usage_errors (argv : list string) (w : World) :
  (length argv < 2 ->
   main argv w
   = (inl (SystemExit 1),
      add_events [EvStdout ("Please provider a repo" +:+ PyStr.NL)] w))
  /\ (forall prog repo rest,
        argv = prog :: repo :: rest ->
        present repo w = false ->
        main argv w
        = (inl (SystemExit 1),
           add_events [EvStderr (repo +:+ " doesn't exist")] w)).
Proof.
  split.
  - intros Hlen. unfold main.
    destruct (length argv <? 2)%nat eqn:E; [|apply Nat.ltb_ge in E; lia].
    unfold emit. by run.
  - intros prog repo rest -> Hp. unfold main, path_exists, emit. run.
    fold (present repo w). by rewrite Hp.
Qed.

End RenderingClaims.

(** ** The claims on the sample repositories *)

(** C1 as stated fails: a commit whose message is one line without a line
    break, or a text-typed file that is not UTF-8, stops the run and no
    record is returned. *)
Lemma extraction_can_abort :
  length (Git.iter_commits Sample.bare_repo) = 1
  /\ @extract_repo_data (Sample.lib Sample.bare_repo) "repo" Sample.world
     = (inl ValueError, Sample.world)
  /\ length (Git.iter_commits Sample.latin1_repo) = 1
  /\ (@extract_repo_data (Sample.lib Sample.latin1_repo) "repo" Sample.world).1
     = inl UnicodeDecodeError.
Proof.
  split; [vm_compute; reflexivity|].
  split; [vm_compute; reflexivity|].
  split; vm_compute; reflexivity.
Qed.

Lemma records_follow_commits_witness :
  @Repo (Sample.lib Sample.repo) "repo" = Some Sample.repo
  /\ exists data w',
       @extract_repo_data (Sample.lib Sample.repo) "repo" Sample.world
         = (inr data, w')
       /\ length data = 3
       /\ 0 < length data
       /\ forall k commit,
            reverse (Git.iter_commits Sample.repo) !! k = Some commit ->
            Page.hash <$> data !! k = Some (Git.hexsha commit).
Proof.
  split; [reflexivity|].
  exact (@records_follow_commits (Sample.lib Sample.repo) "repo" Sample.repo
           Sample.world eq_refl).
Defined.

(** The sides of the entries of the sample repository are the blobs of its
    trees. *)
Lemma sample_sides_of_trees : sides_of_trees More.blob_at Sample.repo.
Proof.
  intros k commit d Hk Hd.
  destruct k as [|[|[|k]]]; vm_compute in Hk; [| | |discriminate Hk];
    injection Hk as <-; vm_compute in Hd.
  - apply elem_of_cons in Hd as [->|Hd]; [|by apply elem_of_nil in Hd].
    exists "foo.txt", "foo.txt". by split.
  - apply elem_of_cons in Hd as [->|Hd].
    + exists "foo.txt", "foo.txt". by split.
    + apply elem_of_cons in Hd as [->|Hd]; [|by apply elem_of_nil in Hd].
      exists "logo.png", "logo.png". by split.
  - by apply elem_of_nil in Hd.
Qed.

(** C2 as stated fails: the first commit adds [foo.txt], so the current
    commit holds the file and the previous revision, the empty tree, does
    not; the diff extraction emits has the lines of the previous revision,
    none, as its from side and the lines of the current commit as its to
    side, and differs from the diff taken the other way round. *)
Lemma diff_from_previous_revision :
  let run := @extract_repo_data (Sample.lib Sample.repo) "repo" Sample.world in
  let current := More.blob_at (Git.RevCommit Sample.first_commit) "foo.txt" in
  let previous := More.blob_at (previous_revision Sample.repo 0) "foo.txt" in
  let diff_text := fun from_side to_side =>
    String.concat PyStr.NL
      (Sample.unified_diff (side_lines from_side) (side_lines to_side)
         "foo.txt" "foo.txt") in
  sides_of_trees More.blob_at Sample.repo
  /\ reverse (Git.iter_commits Sample.repo) !! 0 = Some Sample.first_commit
  /\ Git.diff Sample.repo Sample.first_commit (previous_revision Sample.repo 0)
     = [ {| Git.a_blob := current; Git.b_blob := previous |} ]
  /\ current = Some Sample.foo_ab
  /\ previous = None
  /\ (exists data record,
        run.1 = inr data
        /\ data !! 0 = Some record
        /\ Page.changes record = [0])
  /\ Change.diff (heap run.2 !!! 0) = diff_text previous current
  /\ Change.diff (heap run.2 !!! 0) <> diff_text current previous.
Proof.
  intros run current previous diff_text.
  split; [exact sample_sides_of_trees|].
  split; [vm_compute; reflexivity|].
  split; [vm_compute; reflexivity|].
  split; [vm_compute; reflexivity|].
  split; [vm_compute; reflexivity|].
  split.
  { exists Sample.pages,
      {| Page.title := "Add foo"; Page.hash := "1111111";
         Page.body := EmptyString; Page.changes := [0] |}.
    split; [vm_compute; reflexivity|]. split; [vm_compute; reflexivity|].
    reflexivity. }
  split; [vm_compute; reflexivity|].
  vm_compute. intros H. discriminate H.
Qed.

Lemma diff_sides_witness :
  let current := Git.RevCommit Sample.second_commit in
  let previous := previous_revision Sample.repo 1 in
  @Repo (Sample.lib Sample.repo) "repo" = Some Sample.repo
  /\ sides_of_trees More.blob_at Sample.repo
  /\ @extract_repo_data (Sample.lib Sample.repo) "repo" Sample.world
     = (inr Sample.pages, Sample.extracted)
  /\ reverse (Git.iter_commits Sample.repo) !! 1 = Some Sample.second_commit
  /\ Sample.pages !! 1
     = Some {| Page.title := "Fix bug"; Page.hash := "2222222";
               Page.body := "Details here"; Page.changes := [1] |}
  /\ previous = Git.RevCommit Sample.first_commit
  /\ List.filter (fun d => negb (skipped d))
       (Git.diff Sample.repo Sample.second_commit previous)
     = [ {| Git.a_blob := Some Sample.foo_ac; Git.b_blob := Some Sample.foo_ab |} ]
  /\ (fun l => heap Sample.extracted !!! l) <$> [1]
     = [ {| Change.path := "foo.txt";
            Change.diff := String.concat PyStr.NL
              ["--- foo.txt"; "+++ foo.txt"; "-a"; "-b"; "-"; "+a"; "+c"; "+"] |} ]
  /\ Forall2
       (fun d change =>
          exists path_a path_b,
            Git.a_blob d = More.blob_at current path_a
            /\ Git.b_blob d = More.blob_at previous path_b
            /\ change
               = {| Change.path := diff_label d;
                    Change.diff := String.concat PyStr.NL
                      (Sample.unified_diff
                         (side_lines (More.blob_at previous path_b))
                         (side_lines (More.blob_at current path_a))
                         (diff_label d) (diff_label d)) |})
       (List.filter (fun d => negb (skipped d))
          (Git.diff Sample.repo Sample.second_commit previous))
       ((fun l => heap Sample.extracted !!! l) <$> [1]).
Proof.
  intros current previous.
  split; [reflexivity|].
  split; [exact sample_sides_of_trees|].
  split; [vm_compute; reflexivity|].
  split; [vm_compute; reflexivity|].
  split; [vm_compute; reflexivity|].
  split; [vm_compute; reflexivity|].
  split; [vm_compute; reflexivity|].
  split; [vm_compute; reflexivity|].
  refine (@diff_sides (Sample.lib Sample.repo) More.blob_at "repo" Sample.repo
            Sample.world Sample.pages Sample.extracted 1 Sample.second_commit
            {| Page.title := "Fix bug"; Page.hash := "2222222";
               Page.body := "Details here"; Page.changes := [1] |}
            _ _ _ _ _).
  - reflexivity.
  - exact sample_sides_of_trees.
  - vm_compute; reflexivity.
  - vm_compute; reflexivity.
  - vm_compute; reflexivity.
Defined.

Lemma title_and_body_witness :
  let lines := ["Title"; "dropped"; "line one"; "line two"] in
  Git.message More.long_commit = String.concat PyStr.NL lines
  /\ exists record w',
       @process_commit (Sample.lib Sample.repo) Sample.repo More.long_commit
         (Git.RevCommit Sample.third_commit) Sample.extracted = (inr record, w')
       /\ Page.title record = "Title"
       /\ Page.body record = "line one" +:+ PyStr.NL +:+ "line two".
Proof.
  intros lines. split; [reflexivity|].
  destruct (@title_and_body (Sample.lib Sample.repo) Sample.repo
              More.long_commit (Git.RevCommit Sample.third_commit)
              Sample.extracted) as [Hrecord Hthere].
  destruct (Hthere eq_refl eq_refl) as (record & w' & Hrun).
  exists record, w'. split; [exact Hrun|].
  destruct (Hrecord record w' Hrun) as (_ & Hlines & _).
  destruct (Hlines lines) as [Htitle Hbody].
  - repeat constructor.
  - discriminate.
  - reflexivity.
  - split; [by injection Htitle|exact Hbody].
Defined.

Lemma binary_entries_skipped_witness :
  @skipped {| Git.a_blob := Some Sample.logo; Git.b_blob := None |} = true
  /\ exists record,
       @process_commit (Sample.lib Sample.logo_repo) Sample.logo_repo
         Sample.logo_commit (Git.RevHash empty_tree) Sample.world
       = (inr record, add_events [progress "Add logo"] Sample.world)
       /\ Page.changes record = [].
Proof.
  split; [reflexivity|].
  exact (proj2 (proj2
    (@binary_entries_skipped (Sample.lib Sample.logo_repo)
       {| Git.a_blob := Some Sample.logo; Git.b_blob := None |} Sample.world
       eq_refl))
    Sample.logo_repo Sample.logo_commit (Git.RevHash empty_tree)
    "Add logo" EmptyString [] eq_refl eq_refl).
Defined.

Lemma single_line_message_aborts_witness :
  PyStr.has_nl (Git.message Sample.bare_commit) = false
  /\ exists w',
       @extract_repo_data (Sample.lib Sample.bare_repo) "repo" Sample.world
       = (inl ValueError, w').
Proof.
  split; [reflexivity|].
  exact (proj2 (proj2
    (@single_line_message_aborts (Sample.lib Sample.bare_repo) "repo"
       Sample.bare_repo 0 Sample.bare_commit Sample.world
       eq_refl eq_refl eq_refl))
    [] [] eq_refl eq_refl).
Defined.

(** C5 as stated fails: on a repository whose second commit is titled
    [index], the page of that commit is written to [index.html] too, so the
    file is written twice and ends up with the page of the second record;
    and on a repository whose second commit has a title with the slug of
    the first one, the file of that slug ends up with the page of the second
    record while [index.html] keeps the page of the first. *)
Lemma index_page_clashes :
  let run := @main (Sample.lib Sample.index_repo) ["prog"; "repo"] Sample.world in
  let index_writes := writes_to "output/index.html" (trace run.2) in
  let clash := @main (Sample.lib More.collision_repo) ["prog"; "repo"]
                 Sample.world in
  (run.1 = inr tt
   /\ length index_writes = 2
   /\ head (writes_to "output/add-foo.html" (trace run.2)) = index_writes !! 0
   /\ files run.2 !! "output/index.html" = index_writes !! 1
   /\ index_writes !! 0 <> index_writes !! 1)
  /\ (clash.1 = inr tt
      /\ Sample.slugify (commit_title Sample.second_commit) = "fix-bug"
      /\ length (writes_to "output/index.html" (trace clash.2)) = 1
      /\ head (writes_to "output/fix-bug.html" (trace clash.2))
         = files clash.2 !! "output/index.html"
      /\ files clash.2 !! "output/fix-bug.html"
         <> files clash.2 !! "output/index.html").
Proof.
  intros run index_writes clash. split.
  - split; [vm_compute; reflexivity|].
    split; [vm_compute; reflexivity|].
    split; [vm_compute; reflexivity|].
    split; [vm_compute; reflexivity|].
    vm_compute. intros H. discriminate H.
  - split; [vm_compute; reflexivity|].
    split; [vm_compute; reflexivity|].
    split; [vm_compute; reflexivity|].
    split; [vm_compute; reflexivity|].
    vm_compute. intros H. discriminate H.
Qed.

Lemma index_from_first_record_witness :
  exists w' evs v,
    @render_repo_data (Sample.lib Sample.repo) Sample.pages Sample.extracted
      = (inr tt, w')
    /\ trace w' = trace Sample.extracted ++ evs
    /\ Context.v_title v = "Add foo"
    /\ writes_to "output/index.html" evs = [Sample.Template_render "T" v]
    /\ writes_to "output/add-foo.html" evs = [Sample.Template_render "T" v]
    /\ files w' !! "output/index.html" = Some (Sample.Template_render "T" v)
    /\ files w' !! "output/add-foo.html" = Some (Sample.Template_render "T" v).
Proof.
  destruct (@index_from_first_record (Sample.lib Sample.repo) Sample.pages
              {| Page.title := "Add foo"; Page.hash := "1111111";
                 Page.body := EmptyString; Page.changes := [0] |}
              (drop 1 Sample.pages) Sample.extracted
              "T" "S")
    as (w' & evs & v & Hrun & Htrace & Hshows & Hindex & Hpage & Hfile & Hrest).
  - vm_compute; reflexivity.
  - vm_compute; reflexivity.
  - vm_compute; reflexivity.
  - apply (bool_decide_unpack _). vm_compute; exact I.
  - destruct Hrest as [Hwrites Hsame].
    { apply (bool_decide_unpack _). vm_compute; exact I. }
    exists w', evs, v. split; [exact Hrun|]. split; [exact Htrace|].
    split; [exact (proj1 Hshows)|]. split; [exact Hindex|].
    split; [exact Hwrites|]. split; [exact Hfile|].
    exact (eq_trans Hsame Hfile).
Defined.

Lemma later_page_overwrites_witness :
  Sample.slugify "Fix bug" = Sample.slugify "fix-bug"
  /\ exists w' evs,
       @render_repo_data (Sample.lib Sample.repo) Sample.pages Sample.extracted
         = (inr tt, w')
       /\ trace w' = trace Sample.extracted ++ evs
       /\ length (writes_to "output/fix-bug.html" evs) = 2
       /\ files w' !! "output/fix-bug.html"
          = Some (Sample.Template_render "T"
                    (@page_view (Sample.lib Sample.repo)
                       (@toc_entry (Sample.lib Sample.repo) <$> Sample.pages)
                       (heap Sample.extracted)
                       {| Page.title := "fix-bug"; Page.hash := "3333333";
                          Page.body := EmptyString; Page.changes := [] |})).
Proof.
  split; [vm_compute; reflexivity|].
  destruct (@later_page_overwrites (Sample.lib Sample.repo) Sample.pages
              Sample.extracted "T" "S" 1 2
              {| Page.title := "Fix bug"; Page.hash := "2222222";
                 Page.body := "Details here"; Page.changes := [1] |}
              {| Page.title := "fix-bug"; Page.hash := "3333333";
                 Page.body := EmptyString; Page.changes := [] |})
    as (w' & evs & Hrun & Htrace & _ & _ & Hfile).
  - vm_compute; reflexivity.
  - vm_compute; reflexivity.
  - unfold refs_live. apply (bool_decide_unpack _). vm_compute; exact I.
  - vm_compute; reflexivity.
  - vm_compute; reflexivity.
  - lia.
  - vm_compute; reflexivity.
  - intros k rk Hk Hl. destruct k as [|[|[|k]]]; [lia|lia|lia|].
    vm_compute in Hl. discriminate Hl.
  - exists w', evs. split; [exact Hrun|]. split; [exact Htrace|]. split.
    + assert (Hevs : trace w' = trace (@render_repo_data (Sample.lib Sample.repo)
                                         Sample.pages Sample.extracted).2)
        by (by rewrite Hrun).
      rewrite Htrace in Hevs.
      assert (Hev : evs = drop (length (trace Sample.extracted))
                            (trace (@render_repo_data (Sample.lib Sample.repo)
                                      Sample.pages Sample.extracted).2)).
      { rewrite <- Hevs. by rewrite drop_app_length. }
      rewrite Hev. vm_compute; reflexivity.
    + exact Hfile.
Defined.

(** C7 as stated fails: after a whole run, the change dictionary that
    extraction made for the first record still holds the unified-diff text,
    which is not its HTML rendering. *)
Lemma render_keeps_diff_text :
  let run := @main (Sample.lib Sample.repo) ["prog"; "repo"] Sample.world in
  let change :=
    {| Change.path := "foo.txt";
       Change.diff := PyStr.join PyStr.NL
         (Sample.unified_diff [] (side_lines (Some Sample.foo_ab))
            "foo.txt" "foo.txt") |} in
  run.1 = inr tt
  /\ Page.changes <$> Sample.pages !! 0 = Some [0]
  /\ heap Sample.extracted !! 0 = Some change
  /\ heap run.2 !! 0 = Some change
  /\ Change.diff change
     <> @render_markdown (Sample.lib Sample.repo)
          ("``` diff" +:+ PyStr.NL +:+ Change.diff change +:+ PyStr.NL +:+ "```").
Proof.
  intros run change.
  split; [vm_compute; reflexivity|].
  split; [vm_compute; reflexivity|].
  split; [vm_compute; reflexivity|].
  split; [vm_compute; reflexivity|].
  vm_compute. intros H. discriminate H.
Qed.

Lemma render_leaves_changes_witness :
  heap (@render_repo_data (Sample.lib Sample.repo) Sample.pages
          Sample.extracted).2 !! 0
  = heap Sample.extracted !! 0
  /\ exists w' evs,
       @render_repo_data (Sample.lib Sample.repo) Sample.pages Sample.extracted
         = (inr tt, w')
       /\ trace w' = trace Sample.extracted ++ evs
       /\ forall page, page ∈ Sample.pages ->
            exists v, v ∈ rendered evs
              /\ Context.v_title v = Page.title page
              /\ Context.v_hash v = Page.hash page
              /\ Context.v_changes v
                 = (fun l =>
                      {| Change.path := Change.path (heap Sample.extracted !!! l);
                         Change.diff := @render_markdown (Sample.lib Sample.repo)
                           ("``` diff" +:+ PyStr.NL
                            +:+ Change.diff (heap Sample.extracted !!! l)
                            +:+ PyStr.NL +:+ "```") |})
                   <$> Page.changes page.
Proof.
  destruct (@render_leaves_changes (Sample.lib Sample.repo) Sample.pages
              Sample.extracted) as [Hframe Hhtml].
  split.
  - destruct (heap Sample.extracted !! 0) as [c|] eqn:Hc.
    + exact (Hframe 0 c Hc).
    + vm_compute in Hc. discriminate Hc.
  - apply (Hhtml "T" "S").
    + vm_compute; reflexivity.
    + vm_compute; reflexivity.
    + unfold refs_live. apply (bool_decide_unpack _). vm_compute; exact I.
Defined.

Lemma toc_shared_by_pages_witness :
  let toc := @toc_entry (Sample.lib Sample.repo) <$> Sample.pages in
  toc = [ {| Toc.title := "Add foo"; Toc.path := "./add-foo.html" |};
          {| Toc.title := "Fix bug"; Toc.path := "./fix-bug.html" |};
          {| Toc.title := "fix-bug"; Toc.path := "./fix-bug.html" |} ]
  /\ @toc_loop (Sample.lib Sample.repo) Sample.pages [] = toc
  /\ exists w' evs,
       @render_repo_data (Sample.lib Sample.repo) Sample.pages Sample.extracted
         = (inr tt, w')
       /\ trace w' = trace Sample.extracted ++ evs
       /\ (forall v, v ∈ rendered evs -> Context.v_toc v = toc)
       /\ (forall page, page ∈ Sample.pages ->
             exists v, v ∈ rendered evs
               /\ Context.v_title v = Page.title page
               /\ Context.v_hash v = Page.hash page).
Proof.
  intros toc. split; [vm_compute; reflexivity|].
  apply (@toc_shared_by_pages (Sample.lib Sample.repo) Sample.pages
           Sample.extracted "T" "S").
  - vm_compute; reflexivity.
  - vm_compute; reflexivity.
Defined.

Lemma usage_errors_witness :
  @main (Sample.lib Sample.repo) ["prog"] Sample.world
  = (inl (SystemExit 1),
     add_events [EvStdout ("Please provider a repo" +:+ PyStr.NL)] Sample.world)
  /\ present "missing" Sample.world = false
  /\ @main (Sample.lib Sample.repo) ["prog"; "missing"] Sample.world
     = (inl (SystemExit 1),
        add_events [EvStderr "missing doesn't exist"] Sample.world).
Proof.
  split; [|split].
  - apply (proj1 (@usage_errors (Sample.lib Sample.repo) ["prog"] Sample.world)).
    simpl. lia.
  - vm_compute; reflexivity.
  - apply (proj2 (@usage_errors (Sample.lib Sample.repo) ["prog"; "missing"]
                    Sample.world) "prog" "missing" []).
    + reflexivity.
    + vm_compute; reflexivity.
Defined.

(** * Further properties *)

(** ** Extraction, whatever the outcome *)

Section ExtractionRuns.

Context `{L : Lib}.

Lemma change_of_diff_error d w :
  diff_ok d = false ->
  exists e, change_of_diff d w = (inl e, w) /\ extraction_error e.
Proof.
  unfold diff_ok, skipped, change_of_diff, extraction_error.
  destruct d as [[a|] [b|]]; simpl;
    repeat (destruct (is_text _); simpl); try done; intros H; run.
  - destruct (Utf8.well_formed (Git.data_stream a)) eqn:Ea.
    + rewrite blob_lines_ok by done. simpl in H.
      rewrite blob_lines_fail by done. eauto.
    + rewrite blob_lines_fail by done. eauto.
  - rewrite andb_true_r in H. rewrite blob_lines_fail by done. eauto.
  - rewrite blob_lines_fail by done. eauto.
  - eauto.
Qed.

Lemma diff_loop_error diffs : forall changes w,
  forallb diff_ok diffs = false ->
  exists e objs,
    diff_loop diffs changes w = (inl e, add_objects objs w)
    /\ extraction_error e.
Proof.
  induction diffs as [|d diffs IH]; intros changes w H; simpl in *; [done|].
  destruct (diff_ok d) eqn:Ed; simpl in H.
  - destruct (skipped d) eqn:Es.
    + rewrite (bind_inr _ _ _ _ _ (change_of_diff_skipped d w Es)). by apply IH.
    + rewrite (bind_inr _ _ _ _ _ (change_of_diff_kept d w Es Ed)).
      unfold alloc. run.
      destruct (IH (changes ++ [length (heap w)]) (add_objects [emitted d] w) H)
        as (e & objs & -> & He).
      exists e, ([emitted d] ++ objs). by rewrite add_objects_app.
  - destruct (change_of_diff_error d w Ed) as (e & He & Hk).
    exists e, []. rewrite (bind_inl _ _ _ _ _ He). by rewrite add_objects_nil.
Qed.

Lemma process_commit_error repo commit rev title x body w :
  PyStr.split (Git.message commit) = title :: x :: body ->
  forallb diff_ok (Git.diff repo commit rev) = false ->
  exists e objs,
    process_commit repo commit rev w
      = (inl e, add_objects objs (add_events [progress title] w))
    /\ extraction_error e.
Proof.
  intros Hs Hd. unfold process_commit.
  rewrite (bind_inr _ _ _ _ _ (unpack_message_ok _ _ _ _ w Hs)). simpl.
  unfold emit at 1. run.
  destruct (diff_loop_error _ [] (add_events [progress title] w) Hd)
    as (e & objs & Hrun & He).
  unfold progress in *. rewrite Hrun. by exists e, objs.
Qed.

Lemma commit_title_split commit title rest :
  PyStr.split (Git.message commit) = title :: rest -> commit_title commit = title.
Proof. intros H. unfold commit_title. by rewrite H. Qed.

(** A run of the loop that goes through: the records, the objects and the
    progress lines it leaves. *)
Lemma commit_loop_run repo commits : forall rev data w,
  commits_ok repo commits rev = true ->
  exists records objs,
    commit_loop repo commits rev data w
      = (inr (data ++ records),
         add_objects objs (add_events (progress_lines commits) w))
    /\ Page.title <$> records = commit_title <$> commits
    /\ concat (Page.changes <$> records) = seq (length (heap w)) (length objs).
Proof.
  induction commits as [|commit commits IH]; intros rev data w H; simpl in *.
  - exists [], []. unfold ret, progress_lines. simpl.
    by rewrite app_nil_r, add_events_nil, add_objects_nil.
  - apply andb_prop in H as [H Hrest]. apply andb_prop in H as [Hn Hd].
    destruct (split_two_lines _ Hn) as (title & x & body & Hs).
    rewrite (bind_inr _ _ _ _ _ (process_commit_ok repo commit rev _ _ _ w Hs Hd)).
    set (r := record_of repo commit rev title body (length (heap w))).
    set (o := emitted <$> List.filter kept (Git.diff repo commit rev)).
    destruct (IH (Git.RevCommit commit) (data ++ [r])
                (add_objects o (add_events [progress title] w)) Hrest)
      as (records & objs & Hrun & Ht & Hc).
    exists (r :: records), (o ++ objs). split; [|split].
    + rewrite Hrun. f_equal; [by rewrite <- app_assoc|].
      unfold progress_lines, add_objects, add_events. simpl.
      rewrite (commit_title_split _ _ _ Hs). by rewrite <- !app_assoc.
    + simpl. rewrite (commit_title_split _ _ _ Hs). f_equal. exact Ht.
    + simpl. change (list_fmap Page.t (list loc) Page.changes records)
        with (Page.changes <$> records). rewrite Hc.
      rewrite heap_add_objects, heap_add_events, !length_app.
      subst o. rewrite length_fmap. symmetry. apply seq_app.
Qed.

(** Any run of the loop: it only adds objects and the progress lines of
    the commits it got to. *)
Lemma commit_loop_any repo commits : forall rev data w,
  exists n objs,
    (commit_loop repo commits rev data w).2
      = add_objects objs (add_events (progress_lines (take n commits)) w)
    /\ match (commit_loop repo commits rev data w).1 with
       | inr _ => n = length commits
       | inl e => n <= length commits /\ extraction_error e
       end.
Proof.
  induction commits as [|commit commits IH]; intros rev data w; simpl.
  - exists 0, []. unfold ret, progress_lines. simpl.
    by rewrite add_events_nil, add_objects_nil.
  - destruct (PyStr.has_nl (Git.message commit)) eqn:Hn.
    + destruct (split_two_lines _ Hn) as (title & x & body & Hs).
      destruct (forallb diff_ok (Git.diff repo commit rev)) eqn:Hd.
      * rewrite (bind_inr _ _ _ _ _
                   (process_commit_ok repo commit rev _ _ _ w Hs Hd)).
        set (r := record_of repo commit rev title body (length (heap w))).
        set (o := emitted <$> List.filter kept (Git.diff repo commit rev)).
        destruct (IH (Git.RevCommit commit) (data ++ [r])
                    (add_objects o (add_events [progress title] w)))
          as (n & objs & Hw & Hr).
        exists (S n), (o ++ objs). split.
        -- rewrite Hw. unfold progress_lines. simpl.
           rewrite (commit_title_split _ _ _ Hs).
           unfold add_objects, add_events. simpl. by rewrite <- !app_assoc.
        -- destruct (commit_loop _ _ _ _ _).1; simpl; [|lia].
           split; [lia|apply Hr].
      * destruct (process_commit_error repo commit rev _ _ _ w Hs Hd)
          as (e & objs & He & Hk).
        rewrite (bind_inl _ _ _ _ _ He). exists 1, objs. simpl.
        unfold progress_lines. simpl. rewrite (commit_title_split _ _ _ Hs).
        rewrite ?take_0. simpl. split; [done|]. split; [lia|done].
    + rewrite (bind_inl _ _ _ _ _ (process_commit_bare repo commit rev w Hn)).
      exists 0, []. simpl. unfold progress_lines. simpl.
      rewrite add_events_nil, add_objects_nil. split; [done|].
      split; [lia|]. by left.
Qed.

End ExtractionRuns.

Section ExtractionProperties.

Context `{L : Lib}.

(** X1. Whatever its outcome, extraction changes nothing but the heap, to
    which it adds objects, and standard output, to which it adds the
    progress lines of the commits it got to, oldest first; files and
    directories are left alone.  When it returns, every commit has its
    line. *)
Theorem extraction_effects (repo_path : string) (repo : Git.Repo) (w : World) :
  Repo repo_path = Some repo ->
  let commits := reverse (Git.iter_commits repo) in
  let out := extract_repo_data repo_path w in
  exists n objs,
    out.2 = add_objects objs (add_events (progress_lines (take n commits)) w)
    /\ files out.2 = files w
    /\ dirs out.2 = dirs w
    /\ n <= length commits
    /\ (forall data, out.1 = inr data -> n = length commits).
Proof.
  intros Hrepo commits out. unfold out.
  destruct (nil_or_not (Git.iter_commits repo)) as [He|Hne].
  { rewrite (extract_empty _ _ _ Hrepo He). exists 0, []. simpl.
    unfold progress_lines. rewrite ?take_0. simpl.
    rewrite add_events_nil, add_objects_nil.
    split; [done|]. split; [done|]. split; [done|]. split; [lia|].
    intros data Hd. discriminate Hd. }
  rewrite (extract_unfold _ _ _ Hrepo Hne). fold commits.
  destruct (commit_loop_any repo commits (Git.RevHash empty_tree) [] w)
    as (n & objs & Hw & Hr).
  exists n, objs. rewrite Hw. split; [done|]. split; [done|]. split; [done|].
  destruct (commit_loop _ _ _ _ _).1 as [e|data]; split.
  - apply Hr.
  - intros data Hd. discriminate Hd.
  - lia.
  - intros _ _. exact Hr.
Qed.

(** X2. The records extraction returns refer, in order and each once, to
    exactly the change dictionaries extraction created: the references of
    all records together number the new objects consecutively, so every
    reference is to an existing object and no dictionary is shared. *)
Theorem extraction_references (repo_path : string) (repo : Git.Repo)
  (w : World) (data : list Page.t) (w' : World) :
  Repo repo_path = Some repo ->
  extract_repo_data repo_path w = (inr data, w') ->
  exists objs,
    heap w' = heap w ++ objs
    /\ concat (Page.changes <$> data) = seq (length (heap w)) (length objs)
    /\ refs_live (heap w') data
    /\ NoDup (concat (Page.changes <$> data)).
Proof.
  intros Hrepo Hrun.
  destruct (nil_or_not (Git.iter_commits repo)) as [He|Hne].
  { rewrite (extract_empty _ _ _ Hrepo He) in Hrun. discriminate Hrun. }
  rewrite (extract_unfold _ _ _ Hrepo Hne) in Hrun.
  destruct (commits_ok repo (reverse (Git.iter_commits repo))
              (Git.RevHash empty_tree)) eqn:Hok.
  - destruct (commit_loop_run repo _ (Git.RevHash empty_tree) [] w Hok)
      as (records & objs & Hrun' & _ & Hc).
    rewrite Hrun' in Hrun. injection Hrun as <- <-.
    exists objs. simpl. split; [done|]. split; [done|]. split.
    + unfold refs_live. apply Forall_forall. intros page Hp.
      apply Forall_forall. intros l Hl.
      assert (Hin : l ∈ concat (Page.changes <$> records)).
      { apply list_elem_of_In, in_concat. exists (Page.changes page).
        split; apply list_elem_of_In; [|done]. by apply list_elem_of_fmap_2. }
      rewrite Hc in Hin. apply elem_of_seq in Hin.
      rewrite length_app. lia.
    + rewrite Hc. apply NoDup_seq.
  - destruct (commit_loop_fail repo _ (Git.RevHash empty_tree) [] w Hok)
      as (e & w1 & He).
    congruence.
Qed.


(** X4. For a message made of a first line, a second line and more text,
    the record has the first line as its title and the text after the
    second line break, unchanged, as its body: the second line is dropped
    whether it is blank or not.  A message of two lines gives an empty
    body. *)
Theorem message_parts (repo : Git.Repo) (commit : Git.Commit) (rev : Git.Rev)
  (w : World) (record : Page.t) (w' : World) (first second : string) :
  PyStr.has_nl first = false ->
  PyStr.has_nl second = false ->
  process_commit repo commit rev w = (inr record, w') ->
  (forall more,
     Git.message commit = first +:+ PyStr.NL +:+ second +:+ PyStr.NL +:+ more ->
     Page.title record = first /\ Page.body record = more)
  /\ (Git.message commit = first +:+ PyStr.NL +:+ second ->
      Page.title record = first /\ Page.body record = EmptyString).
Proof.
  intros Hf Hs Hrun.
  apply process_commit_inv in Hrun as (title & x & body & Hsplit & _ & -> & _).
  split.
  - intros more Hm. rewrite Hm in Hsplit.
    rewrite (split_line _ _ Hf), (split_line _ _ Hs) in Hsplit.
    injection Hsplit as <- _ <-. simpl. split; [done|]. apply join_split.
  - intros Hm. rewrite Hm in Hsplit.
    rewrite (split_line _ _ Hf), (split_single _ Hs) in Hsplit.
    by injection Hsplit as <- _ <-.
Qed.

End ExtractionProperties.

(** ** Rendering: inputs, outputs and what is left alone *)

Lemma in_output_not_input name :
  in_output name <> base_html /\ in_output name <> styles.
Proof.
  unfold in_output, output_dir, base_html, styles.
  split; intros H; cbv [String.append] in H; discriminate H.
Qed.

Lemma index_not_stylesheet : in_output "index.html" <> in_output "styles.css".
Proof. intros H. vm_compute in H. discriminate H. Qed.

Lemma elem_of_last_is_Some {A} (x : A) (l : list A) : x ∈ l -> is_Some (last l).
Proof. intros H. apply last_is_Some. intros ->. by apply elem_of_nil in H. Qed.

Lemma replay_keeps p evs fs :
  is_Some (fs !! p) -> is_Some (replay evs fs !! p).
Proof. intros H. rewrite replay_lookup. by destruct (last _). Qed.

Lemma writes_to_setup_stylesheet w css :
  writes_to (in_output "styles.css") (setup_events w css) = [css].
Proof.
  unfold setup_events. destruct (present output_dir w); simpl;
    by rewrite ?String.eqb_refl.
Qed.

Section RenderingRuns.

Context `{L : Lib}.

(** Pages filed elsewhere leave [p] alone, index or not. *)
Lemma writes_to_pages_none template p views : forall generate_index,
  p <> in_output "index.html" ->
  Forall (fun v => page_file (Context.v_title v) <> p) views ->
  writes_to p (page_events template generate_index views) = [].
Proof.
  intros generate_index Hp Hall. destruct Hall as [|v views Hv Hall]; [done|].
  simpl. destruct (String.eqb_spec p (page_file (Context.v_title v)));
    [congruence|].
  destruct generate_index; simpl.
  - destruct (String.eqb_spec p (in_output "index.html")); [congruence|].
    by apply writes_to_other.
  - by apply writes_to_other.
Qed.

Lemma index_written template v views :
  is_Some (last (writes_to (in_output "index.html")
                   (page_events template true (v :: views)))).
Proof.
  apply (elem_of_last_is_Some (Template_render template v)). simpl.
  destruct (String.eqb _ (page_file _)); rewrite ?String.eqb_refl;
    rewrite !elem_of_cons; tauto.
Qed.

(** What a rendering that finds its two inputs leaves in the files. *)
Lemma render_outputs data w tpl css :
  files w !! base_html = Some tpl ->
  files w !! styles = Some css ->
  exists w',
    render_repo_data data w = (inr tt, w')
    /\ files w' !! in_output "styles.css" = Some css
    /\ (forall page, page ∈ data ->
          is_Some (files w' !! page_file (Page.title page)))
    /\ (data <> [] -> is_Some (files w' !! in_output "index.html"))
    /\ (forall q, is_Some (files w !! q) -> is_Some (files w' !! q))
    /\ present output_dir w' = true.
Proof.
  intros Ht Hc.
  destruct (render_repo_data_spec data w tpl css Ht Hc)
    as (objs & views & Hrun & Hshow & _).
  eexists. split; [exact Hrun|]. cbn [files dirs].
  split; [|split; [|split; [|split]]].
  - rewrite replay_lookup, writes_to_app, last_app.
    rewrite writes_to_pages_none.
    + by rewrite writes_to_setup_stylesheet.
    + intros H. by apply index_not_stylesheet.
    + apply Forall_forall. intros v _. apply page_not_stylesheet.
  - intros page Hin. apply list_elem_of_lookup in Hin as [k Hk].
    destruct (Forall2_lookup_l _ _ _ _ _ Hshow Hk) as (v & Hv & Htitle & _).
    rewrite replay_lookup, writes_to_app, last_app.
    pose proof (page_written tpl views true k v Hv) as Hw.
    rewrite Htitle in Hw. apply elem_of_last_is_Some in Hw.
    destruct Hw as [c ->]. eauto.
  - intros Hne. destruct views as [|v views].
    { apply Forall2_nil_inv_r in Hshow. congruence. }
    rewrite replay_lookup, writes_to_app, last_app.
    destruct (index_written tpl v views) as [c ->]. eauto.
  - intros q Hq. by apply replay_keeps.
  - destruct (present output_dir w) eqn:Hp; unfold present in *;
      cbn [files dirs].
    + apply orb_true_iff in Hp as [Hp|Hp].
      * by rewrite Hp.
      * apply bool_decide_eq_true in Hp. apply orb_true_iff. right.
        apply bool_decide_eq_true. by apply replay_keeps.
    + apply orb_true_iff. left. apply bool_decide_eq_true. set_solver.
Qed.

End RenderingRuns.

Section RenderingProperties.

Context `{L : Lib}.

Lemma writes_to_setup_any p w w' css :
  writes_to p (setup_events w css) = writes_to p (setup_events w' css).
Proof.
  unfold setup_events.
  by destruct (present output_dir w), (present output_dir w').
Qed.

(** Rendering writes in the output directory only. *)
Lemma writes_outside_output template p w css views generate_index :
  (forall name, p <> in_output name) ->
  writes_to p (setup_events w css ++ page_events template generate_index views)
  = [].
Proof.
  intros Hp. rewrite writes_to_app, writes_to_setup by apply Hp.
  apply writes_to_pages_none; [apply Hp|].
  apply Forall_forall. intros v _ H. by apply (Hp _ (eq_sym H)).
Qed.

Lemma page_view_app toc (h objs : list Change.t) page :
  Forall (fun l => l < length h) (Page.changes page) ->
  page_view toc (h ++ objs) page = page_view toc h page.
Proof.
  intros Hl. unfold page_view. f_equal.
  apply list_fmap_ext. intros i l Hi.
  rewrite lookup_total_app_l; [done|].
  rewrite Forall_forall in Hl. apply Hl. by eapply list_elem_of_lookup_2.
Qed.

Lemma main_unfold prog repo_path rest w :
  present repo_path w = true ->
  main (prog :: repo_path :: rest) w
  = (extract_repo_data repo_path ≫= render_repo_data) w.
Proof.
  intros Hp. unfold main, path_exists. run. fold (present repo_path w).
  by rewrite Hp.
Qed.

(** X5. Without the template rendering raises [FileNotFoundError] and does
    nothing; with the template but without the stylesheet it raises
    [FileNotFoundError] after having made the output directory if that was
    not there, and writes no file. *)
Theorem render_missing_inputs (data : list Page.t) (w : World) :
  (files w !! base_html = None ->
   render_repo_data data w = (inl FileNotFoundError, w))
  /\ (forall tpl,
        files w !! base_html = Some tpl ->
        files w !! styles = None ->
        render_repo_data data w
        = (inl FileNotFoundError,
           if present output_dir w then w
           else add_events [EvMkdir output_dir] (add_dir output_dir w))).
Proof.
  split.
  - intros Ht. unfold render_repo_data, read_file at 1. run. by rewrite Ht.
  - intros tpl Ht Hc. unfold render_repo_data, read_file at 1, path_exists. run.
    rewrite Ht. fold (present output_dir w).
    unfold copy, read_file, mkdir. run.
    destruct (present output_dir w); simpl; by rewrite Hc.
Qed.

(** X6. Rendering removes no file, and a file that is neither the copied
    stylesheet, nor [index.html], nor the page of a record keeps its
    content: what an earlier run left in the output directory stays. *)
Theorem render_keeps_other_files (data : list Page.t) (w : World)
  (tpl css : string) :
  files w !! base_html = Some tpl ->
  files w !! styles = Some css ->
  (forall p, is_Some (files w !! p) ->
     is_Some (files (render_repo_data data w).2 !! p))
  /\ (forall p,
        p <> in_output "styles.css" ->
        p <> in_output "index.html" ->
        (forall page, page ∈ data -> p <> page_file (Page.title page)) ->
        files (render_repo_data data w).2 !! p = files w !! p).
Proof.
  intros Ht Hc.
  destruct (render_repo_data_spec data w tpl css Ht Hc)
    as (objs & views & -> & Hshow & _).
  cbn [snd files]. split.
  - intros p Hp. by apply replay_keeps.
  - intros p Hs Hi Hpages.
    rewrite replay_lookup, writes_to_app, writes_to_setup by done.
    rewrite writes_to_pages_none; [done|done|].
    apply (shows_views _ _ _ Hshow (fun t => page_file t <> p)).
    apply Forall_forall. intros page Hin H. by apply (Hpages page Hin).
Qed.

(** X7. For an empty list of records rendering makes the output directory
    if it is not there and copies the stylesheet; it renders nothing and
    writes no [index.html]. *)
Theorem render_empty_history (w : World) (tpl css : string) :
  files w !! base_html = Some tpl ->
  files w !! styles = Some css ->
  render_repo_data [] w
  = (inr tt,
     {| heap := heap w;
        files := <[in_output "styles.css" := css]> (files w);
        dirs := if present output_dir w then dirs w
                else {[output_dir]} ∪ dirs w;
        trace := trace w ++ setup_events w css |})
  /\ writes_to (in_output "index.html") (setup_events w css) = []
  /\ rendered (setup_events w css) = [].
Proof.
  intros Ht Hc. split; [|split].
  - destruct (render_repo_data_spec [] w tpl css Ht Hc)
      as (objs & views & Hrun & Hshow & Hviews).
    rewrite (Hviews (Forall_nil_2 _)) in Hrun. simpl in Hrun.
    rewrite Hrun. f_equal.
    assert (Hobjs : heap (render_repo_data [] w).2 = heap w).
    { unfold render_repo_data, read_file at 1, path_exists. run. rewrite Ht.
      unfold copy, read_file, mkdir, write_file. run.
      destruct (_ || _); simpl; by rewrite Hc. }
    rewrite Hrun in Hobjs. cbn [snd heap] in Hobjs.
    rewrite Hobjs, !app_nil_r. f_equal.
    unfold setup_events. by destruct (present output_dir w).
  - apply writes_to_setup. apply index_not_stylesheet.
  - unfold setup_events. by destruct (present output_dir w).
Qed.

(** X8. Rendering the same records a second time, on the state the first
    rendering left, goes through and leaves every file and directory as it
    is. *)
Theorem render_twice (data : list Page.t) (w w1 : World) (tpl css : string) :
  files w !! base_html = Some tpl ->
  files w !! styles = Some css ->
  refs_live (heap w) data ->
  render_repo_data data w = (inr tt, w1) ->
  exists w2,
    render_repo_data data w1 = (inr tt, w2)
    /\ files w2 = files w1
    /\ dirs w2 = dirs w1.
Proof.
  intros Ht Hc Hlive Hrun.
  destruct (render_outputs data w tpl css Ht Hc)
    as (w1' & Hrun' & _ & _ & _ & _ & Hpresent).
  rewrite Hrun in Hrun'. injection Hrun' as <-.
  destruct (render_repo_data_spec data w tpl css Ht Hc)
    as (objs & views & Hspec & _ & Hviews).
  specialize (Hviews Hlive). subst views.
  rewrite Hrun in Hspec. injection Hspec as Hw1.
  assert (Hin : forall p, (forall name, p <> in_output name) ->
                          files w1 !! p = files w !! p).
  { intros p Hp. rewrite Hw1. cbn [files].
    by rewrite replay_lookup, writes_outside_output. }
  assert (Ht1 : files w1 !! base_html = Some tpl).
  { rewrite Hin; [done|]. intros name H. by apply (in_output_not_input name). }
  assert (Hc1 : files w1 !! styles = Some css).
  { rewrite Hin; [done|]. intros name H. by apply (in_output_not_input name). }
  assert (Hheap : heap w1 = heap w ++ objs) by (by rewrite Hw1).
  assert (Hlive1 : refs_live (heap w1) data).
  { rewrite Hheap. unfold refs_live in *.
    eapply Forall_impl; [exact Hlive|]. intros page Hp. simpl in Hp.
    eapply Forall_impl; [exact Hp|]. intros l Hl. simpl in Hl.
    rewrite length_app. lia. }
  destruct (render_repo_data_spec data w1 tpl css Ht1 Hc1)
    as (objs2 & views2 & Hrun2 & _ & Hviews2).
  specialize (Hviews2 Hlive1).
  assert (Hsame : views2 = page_view (toc_entry <$> data) (heap w) <$> data).
  { rewrite Hviews2. apply list_fmap_ext. intros i page Hi.
    rewrite Hheap. apply page_view_app.
    unfold refs_live in Hlive. rewrite Forall_forall in Hlive.
    apply Hlive. by eapply list_elem_of_lookup_2. }
  rewrite Hsame in Hrun2.
  eexists. split; [exact Hrun2|]. cbn [files dirs]. split.
  - apply map_eq. intros p. rewrite replay_lookup.
    rewrite writes_to_app, (writes_to_setup_any p w1 w), <- writes_to_app.
    rewrite Hw1 at 1. cbn [files]. rewrite replay_lookup.
    rewrite Hw1. cbn [files]. rewrite replay_lookup.
    by destruct (last _).
  - by rewrite Hpresent.
Qed.

(** X9. Every entry of the table of contents has the path [./<name>] of a
    file [<name>] that is in the output directory when rendering is done,
    so every link of the navigation leads to a page. *)
Theorem toc_links_resolve (data : list Page.t) (w : World) (tpl css : string) :
  files w !! base_html = Some tpl ->
  files w !! styles = Some css ->
  exists w',
    render_repo_data data w = (inr tt, w')
    /\ forall entry, entry ∈ toc_loop data [] ->
         exists name,
           Toc.path entry = "./" +:+ name
           /\ is_Some (files w' !! in_output name).
Proof.
  intros Ht Hc.
  destruct (render_outputs data w tpl css Ht Hc)
    as (w' & Hrun & _ & Hpages & _).
  exists w'. split; [exact Hrun|].
  intros entry Hin. rewrite toc_loop_spec in Hin. simpl in Hin.
  apply list_elem_of_fmap in Hin as (page & -> & Hpage).
  exists (slugify (Page.title page) +:+ ".html"). split; [done|].
  exact (Hpages page Hpage).
Qed.

Lemma main_usage argv w :
  length argv < 2 -> exists w', main argv w = (inl (SystemExit 1), w').
Proof.
  intros Hlen. unfold main.
  destruct (length argv <? 2)%nat eqn:E; [|apply Nat.ltb_ge in E; lia].
  unfold emit. run. eauto.
Qed.

Lemma main_absent prog repo_path rest w :
  present repo_path w = false ->
  exists w', main (prog :: repo_path :: rest) w = (inl (SystemExit 1), w').
Proof.
  intros Hp. unfold main, path_exists, emit. run.
  fold (present repo_path w). rewrite Hp. eauto.
Qed.

Lemma render_raises data w :
  files w !! base_html = None \/ files w !! styles = None ->
  exists w', render_repo_data data w = (inl FileNotFoundError, w').
Proof.
  intros H. destruct (files w !! base_html) as [tpl|] eqn:Ht.
  - destruct H as [H|Hc]; [done|].
    unfold render_repo_data, read_file at 1, path_exists. run. rewrite Ht.
    unfold copy, read_file, mkdir. run.
    destruct (_ || _); simpl; rewrite Hc; eauto.
  - unfold render_repo_data, read_file at 1. run. rewrite Ht. eauto.
Qed.

(** X10. When the program ends normally, it was given the path of a
    repository that opens and has at least one commit, the stylesheet was
    in place, and the output directory now holds the content of the
    stylesheet in [styles.css], a page under the slug of the title of every
    commit, and [index.html]. *)
Theorem main_run (argv : list string) (w w' : World) :
  main argv w = (inr tt, w') ->
  exists prog repo_path rest repo css,
    argv = prog :: repo_path :: rest
    /\ Repo repo_path = Some repo
    /\ Git.iter_commits repo <> []
    /\ files w !! styles = Some css
    /\ files w' !! in_output "styles.css" = Some css
    /\ (forall commit, commit ∈ Git.iter_commits repo ->
          is_Some (files w' !! page_file (commit_title commit)))
    /\ is_Some (files w' !! in_output "index.html").
Proof.
  intros Hmain.
  destruct argv as [|prog [|repo_path rest]].
  { destruct (main_usage [] w) as [w1 H]; [simpl; lia|]. congruence. }
  { destruct (main_usage [prog] w) as [w1 H]; [simpl; lia|]. congruence. }
  destruct (present repo_path w) eqn:Hp.
  2:{ destruct (main_absent prog repo_path rest w Hp) as [w1 H]. congruence. }
  rewrite (main_unfold _ _ _ _ Hp) in Hmain.
  destruct (Repo repo_path) as [repo|] eqn:Hrepo.
  2:{ assert (H : extract_repo_data repo_path w
                  = (inl InvalidGitRepositoryError, w)).
      { unfold extract_repo_data. by rewrite Hrepo. }
      rewrite (bind_inl _ _ _ _ _ H) in Hmain. discriminate Hmain. }
  destruct (nil_or_not (Git.iter_commits repo)) as [He|Hne].
  { rewrite (bind_inl _ _ _ _ _ (extract_empty _ _ _ Hrepo He)) in Hmain.
    discriminate Hmain. }
  destruct (commits_ok repo (reverse (Git.iter_commits repo))
              (Git.RevHash empty_tree)) eqn:Hok.
  2:{ destruct (commit_loop_fail repo _ (Git.RevHash empty_tree) [] w Hok)
        as (e & w1 & H).
      rewrite <- (extract_unfold _ _ _ Hrepo Hne) in H.
      rewrite (bind_inl _ _ _ _ _ H) in Hmain. discriminate Hmain. }
  destruct (commit_loop_run repo _ (Git.RevHash empty_tree) [] w Hok)
    as (records & objs & Hrun & Htitles & _).
  rewrite <- (extract_unfold _ _ _ Hrepo Hne) in Hrun.
  rewrite (bind_inr _ _ _ _ _ Hrun) in Hmain. simpl app in Hmain.
  set (w1 := add_objects objs _) in *.
  destruct (files w !! base_html) as [tpl|] eqn:Ht.
  2:{ destruct (render_raises records w1 (or_introl Ht)) as [w2 H].
      congruence. }
  destruct (files w !! styles) as [css|] eqn:Hc.
  2:{ destruct (render_raises records w1 (or_intror Hc)) as [w2 H].
      congruence. }
  destruct (render_outputs records w1 tpl css Ht Hc)
    as (w2 & Hrender & Hstyles & Hpages & Hindex & _).
  rewrite Hrender in Hmain. injection Hmain as <-.
  assert (Hrecords : records <> []).
  { intros ->. apply (f_equal length) in Htitles.
    rewrite !length_fmap, length_reverse in Htitles. simpl in Htitles.
    by destruct (Git.iter_commits repo). }
  exists prog, repo_path, rest, repo, css.
  split; [done|]. split; [done|]. split; [done|]. split; [done|].
  split; [exact Hstyles|]. split; [|by apply Hindex].
  intros commit Hin.
  assert (Ht' : commit_title commit ∈ Page.title <$> records).
  { rewrite Htitles. apply list_elem_of_fmap_2. by apply elem_of_reverse. }
  apply list_elem_of_fmap in Ht' as (page & -> & Hpage).
  by apply Hpages.
Qed.

(** X11. When extraction raises, the program ends with that exception in
    the state extraction left: rendering is not started, and no file or
    directory has been touched. *)
Theorem main_failed_extraction (prog repo_path : string) (rest : list string)
  (w : World) (e : exn) (w1 : World) :
  present repo_path w = true ->
  extract_repo_data repo_path w = (inl e, w1) ->
  main (prog :: repo_path :: rest) w = (inl e, w1)
  /\ files w1 = files w
  /\ dirs w1 = dirs w.
Proof.
  intros Hp Hrun. rewrite (main_unfold _ _ _ _ Hp).
  rewrite (bind_inl _ _ _ _ _ Hrun). split; [done|].
  destruct (Repo repo_path) as [repo|] eqn:Hrepo.
  - destruct (nil_or_not (Git.iter_commits repo)) as [He|Hne].
    { rewrite (extract_empty _ _ _ Hrepo He) in Hrun. by injection Hrun as _ <-. }
    rewrite (extract_unfold _ _ _ Hrepo Hne) in Hrun.
    destruct (commit_loop_any repo (reverse (Git.iter_commits repo))
                (Git.RevHash empty_tree) [] w) as (n & objs & Hw & _).
    rewrite Hrun in Hw. simpl in Hw. by rewrite Hw.
  - unfold extract_repo_data in Hrun. rewrite Hrepo in Hrun.
    by injection Hrun as _ <-.
Qed.

End RenderingProperties.

(** ** The further properties on the sample repositories *)

Lemma extraction_effects_witness :
  @Repo (Sample.lib Sample.repo) "repo" = Some Sample.repo
  /\ exists n objs,
       (@extract_repo_data (Sample.lib Sample.repo) "repo" Sample.world).2
       = add_objects objs
           (add_events
              (progress_lines
                 (take n (reverse (Git.iter_commits Sample.repo))))
              Sample.world)
       /\ files (@extract_repo_data (Sample.lib Sample.repo) "repo"
                   Sample.world).2 = files Sample.world
       /\ dirs (@extract_repo_data (Sample.lib Sample.repo) "repo"
                  Sample.world).2 = dirs Sample.world
       /\ n <= length (reverse (Git.iter_commits Sample.repo))
       /\ (forall data,
             (@extract_repo_data (Sample.lib Sample.repo) "repo"
                Sample.world).1 = inr data ->
             n = length (reverse (Git.iter_commits Sample.repo))).
Proof.
  split; [reflexivity|].
  exact (@extraction_effects (Sample.lib Sample.repo) "repo" Sample.repo
           Sample.world eq_refl).
Defined.

Lemma extraction_references_witness :
  @extract_repo_data (Sample.lib Sample.repo) "repo" Sample.world
  = (inr Sample.pages, Sample.extracted)
  /\ exists objs,
       heap Sample.extracted = heap Sample.world ++ objs
       /\ concat (Page.changes <$> Sample.pages)
          = seq (length (heap Sample.world)) (length objs)
       /\ refs_live (heap Sample.extracted) Sample.pages
       /\ NoDup (concat (Page.changes <$> Sample.pages)).
Proof.
  assert (Hrun : @extract_repo_data (Sample.lib Sample.repo) "repo" Sample.world
                 = (inr Sample.pages, Sample.extracted))
    by (vm_compute; reflexivity).
  split; [exact Hrun|].
  exact (@extraction_references (Sample.lib Sample.repo) "repo" Sample.repo
           Sample.world Sample.pages Sample.extracted eq_refl Hrun).
Defined.


Lemma message_parts_witness :
  exists record w',
    @process_commit (Sample.lib Sample.repo) Sample.repo Sample.second_commit
      (Git.RevCommit Sample.first_commit) Sample.world = (inr record, w')
    /\ Page.title record = "Fix bug"
    /\ Page.body record = "Details here".
Proof.
  eexists _, _. split; [vm_compute; reflexivity|].
  refine (proj1 (@message_parts (Sample.lib Sample.repo) Sample.repo
                   Sample.second_commit (Git.RevCommit Sample.first_commit)
                   Sample.world _ _ "Fix bug" EmptyString eq_refl eq_refl _)
            "Details here" eq_refl).
  vm_compute; reflexivity.
Defined.

Lemma render_missing_inputs_witness :
  @render_repo_data (Sample.lib Sample.repo) Sample.pages More.empty_world
  = (inl FileNotFoundError, More.empty_world)
  /\ @render_repo_data (Sample.lib Sample.repo) Sample.pages
       More.template_only_world
     = (inl FileNotFoundError,
        add_events [EvMkdir output_dir]
          (add_dir output_dir More.template_only_world)).
Proof.
  split.
  - apply (proj1 (@render_missing_inputs (Sample.lib Sample.repo) Sample.pages
                    More.empty_world)).
    vm_compute; reflexivity.
  - assert (Hp : present output_dir More.template_only_world = false)
      by (vm_compute; reflexivity).
    pose proof (proj2 (@render_missing_inputs (Sample.lib Sample.repo)
                         Sample.pages More.template_only_world) "T") as H.
    rewrite Hp in H. apply H; vm_compute; reflexivity.
Defined.

Lemma render_keeps_other_files_witness :
  files (@render_repo_data (Sample.lib Sample.repo) Sample.pages
           More.stale_world).2 !! "output/old-page.html" = Some "old".
Proof.
  assert (Hold : files More.stale_world !! "output/old-page.html" = Some "old")
    by (vm_compute; reflexivity).
  rewrite <- Hold.
  apply (proj2 (@render_keeps_other_files (Sample.lib Sample.repo) Sample.pages
                  More.stale_world "T" "S"
                  ltac:(vm_compute; reflexivity) ltac:(vm_compute; reflexivity))).
  - intros H. vm_compute in H. discriminate H.
  - intros H. vm_compute in H. discriminate H.
  - intros page Hin H. apply list_elem_of_In in Hin. vm_compute in Hin.
    destruct Hin as [<-|[<-|[<-|[]]]]; vm_compute in H; discriminate H.
Defined.

Lemma render_empty_history_witness :
  @render_repo_data (Sample.lib Sample.repo) [] Sample.world
  = (inr tt,
     {| heap := [];
        files := <[in_output "styles.css" := "S"]> (files Sample.world);
        dirs := {[output_dir]} ∪ dirs Sample.world;
        trace := [EvMkdir output_dir; EvWrite (in_output "styles.css") "S"] |}).
Proof.
  pose proof (proj1 (@render_empty_history (Sample.lib Sample.repo) Sample.world
                       "T" "S" ltac:(vm_compute; reflexivity)
                       ltac:(vm_compute; reflexivity))) as H.
  assert (Hp : present output_dir Sample.world = false)
    by (vm_compute; reflexivity).
  unfold setup_events in H. rewrite Hp in H. exact H.
Defined.

Lemma render_twice_witness :
  let w1 := (@render_repo_data (Sample.lib Sample.repo) Sample.pages
               Sample.extracted).2 in
  exists w2,
    @render_repo_data (Sample.lib Sample.repo) Sample.pages w1 = (inr tt, w2)
    /\ files w2 = files w1
    /\ dirs w2 = dirs w1.
Proof.
  intros w1.
  apply (@render_twice (Sample.lib Sample.repo) Sample.pages Sample.extracted
           w1 "T" "S").
  - vm_compute; reflexivity.
  - vm_compute; reflexivity.
  - unfold refs_live. apply (bool_decide_unpack _). vm_compute; exact I.
  - vm_compute; reflexivity.
Defined.

Lemma toc_links_resolve_witness :
  exists w',
    @render_repo_data (Sample.lib Sample.repo) Sample.pages Sample.extracted
      = (inr tt, w')
    /\ forall entry,
         entry ∈ @toc_loop (Sample.lib Sample.repo) Sample.pages [] ->
         exists name,
           Toc.path entry = "./" +:+ name
           /\ is_Some (files w' !! in_output name).
Proof.
  apply (@toc_links_resolve (Sample.lib Sample.repo) Sample.pages
           Sample.extracted "T" "S").
  - vm_compute; reflexivity.
  - vm_compute; reflexivity.
Defined.

Lemma main_run_witness :
  exists repo css,
    Git.iter_commits repo <> []
    /\ files Sample.world !! styles = Some css
    /\ files (@main (Sample.lib Sample.repo) ["prog"; "repo"] Sample.world).2
         !! in_output "styles.css" = Some css
    /\ is_Some (files (@main (Sample.lib Sample.repo) ["prog"; "repo"]
                         Sample.world).2 !! in_output "index.html").
Proof.
  assert (Hrun : @main (Sample.lib Sample.repo) ["prog"; "repo"] Sample.world
                 = (inr tt, (@main (Sample.lib Sample.repo) ["prog"; "repo"]
                               Sample.world).2))
    by (vm_compute; reflexivity).
  destruct (@main_run (Sample.lib Sample.repo) ["prog"; "repo"] Sample.world _
              Hrun)
    as (prog & repo_path & rest & repo & css & _ & _ & Hne & Hc & Hs & _ & Hi).
  exists repo, css. split; [exact Hne|]. split; [exact Hc|].
  split; [exact Hs|exact Hi].
Defined.

Lemma main_failed_extraction_witness :
  let w1 := (@extract_repo_data (Sample.lib Sample.latin1_repo) "repo"
               Sample.world).2 in
  @main (Sample.lib Sample.latin1_repo) ["prog"; "repo"] Sample.world
  = (inl UnicodeDecodeError, w1)
  /\ files w1 = files Sample.world
  /\ dirs w1 = dirs Sample.world.
Proof.
  intros w1.
  apply (@main_failed_extraction (Sample.lib Sample.latin1_repo) "prog" "repo"
           [] Sample.world UnicodeDecodeError w1).
  - vm_compute; reflexivity.
  - vm_compute; reflexivity.
Defined.
